(** * DynamicBuffer (be/src/rpc/dynamic_buffer.h)

    A shallow embedding of [palo::DynamicBuffer], the growable byte buffer of
    the RPC layer, and the properties of its operations.

    The class keeps three raw pointers ([base], [ptr], [mark]) into one
    array obtained from [new uint8_t[n]], a 32-bit [size] and the [own]
    flag.  The embedding follows the header member by member:

    - integers are [Z] with the wrap-around of their C++ type written out
      ([size_t] is 64 bits wide, [uint32_t] 32 bits, LP64);
    - a pointer is null or a block of the free store together with a byte
      offset; the free store is the list of all blocks ever allocated, each
      with its length, its cells and a flag telling whether it is still
      allocated;
    - a member function is a computation over the pair of the free store and
      the object, which either returns or stops: [new] that cannot be
      served throws [std::bad_alloc] ([BadAlloc]), and an access outside an
      allocated block, a wrong [delete[]] or the difference of unrelated
      pointers has no defined behaviour ([Undefined]).

    The free store is unbounded: [new] fails only for a request larger than
    any array can be.  Pointer arithmetic itself is not checked, accesses
    are.

    The first part of the file holds the definitions, the second the
    properties: what [grow] does to the pointers, to the ownership and to the
    recorded capacity, the operations that reset or detach the buffer, the
    behaviour at requests of 4 GiB and more, where the 32-bit [size] wraps
    around, and the behaviour of [ensure], [add] and the capacity below that
    bound; then the constructor, the queries, [free] and the destructor,
    [reserve], [set], the place [add] returns, and the invariant the public
    calls keep. *)

From Stdlib Require Import ZArith Lia Bool List.
From Stdlib.Init Require Import Byte.
From stdpp Require Import base list.
Import ListNotations.

Local Open Scope Z_scope.

(** ** Integer types *)

Definition size_t_modulus : Z := Eval cbv in 2 ^ 64.
Definition uint32_modulus : Z := Eval cbv in 2 ^ 32.
Definition PTRDIFF_MAX : Z := Eval cbv in 2 ^ 63 - 1.

(** Conversion of a mathematical integer to [size_t] and to [uint32_t]. *)
Definition to_size_t (z : Z) : Z := z mod size_t_modulus.
Definition to_uint32 (z : Z) : Z := z mod uint32_modulus.

(** ** Pointers and the free store *)

Inductive pointer : Type :=
| Null
| Ptr (blk : nat) (ofs : Z).

Definition is_null (p : pointer) : bool :=
  match p with Null => true | Ptr _ _ => false end.

Definition pointer_eqb (p q : pointer) : bool :=
  match p, q with
  | Null, Null => true
  | Ptr k i, Ptr k' j => (k =? k')%nat && (i =? j)
  | _, _ => false
  end.

(** [p - q]: defined for two null pointers and inside one block. *)
Definition ptr_diff (p q : pointer) : option Z :=
  match p, q with
  | Null, Null => Some 0
  | Ptr k i, Ptr k' j => if (k =? k')%nat then Some (i - j) else None
  | _, _ => None
  end.

(** [p + n]; a null pointer only moves by zero. *)
Definition ptr_add (p : pointer) (n : Z) : option pointer :=
  match p with
  | Null => if n =? 0 then Some Null else None
  | Ptr k i => Some (Ptr k (i + n))
  end.

(** A cell holds a byte, or nothing while its value is indeterminate (as
    the cells of [new uint8_t[n]] are).  The cells of a block are described
    by the way they were produced: fresh from [new], given bytes, one byte
    repeated, or the result of a copy.  A block of several gigabytes is then
    as cheap to describe as one of four bytes; [cell] reads one cell. *)
Inductive content : Type :=
| Indeterminate
| Bytes (l : list Byte.byte)
| Repeat (b : Byte.byte)
| Copy (old : content) (od : Z) (src : content) (os n : Z).

(** [Copy old od src os n]: [old] after [n] cells were copied to offset [od]
    from offset [os] of [src]. *)
Fixpoint cell (c : content) (i : Z) : option Byte.byte :=
  match c with
  | Indeterminate => None
  | Bytes l => if i <? 0 then None else l !! Z.to_nat i
  | Repeat b => Some b
  | Copy old od src os n =>
      if (od <=? i) && (i <? od + n) then cell src (os + (i - od))
      else cell old i
  end.

Record block : Type := Block {
  blen : Z;
  cells : content;
  live : bool
}.

Definition kill (B : block) : block := Block (blen B) (cells B) false.

(** ** The object *)

Record DynamicBuffer : Type := {
  base : pointer;   (* Pointer to the allocated memory buffer *)
  ptr : pointer;    (* Pointer to the end of the used part of the buffer *)
  mark : pointer;   (* A "bookmark", can be set by the caller *)
  size : Z;         (* uint32_t: the size of the allocated memory buffer *)
  own : bool        (* the buffer is released when going out of scope *)
}.

Record state : Type := State {
  mem : list block;
  this : DynamicBuffer
}.

(** ** Computations *)

Inductive fault : Type := BadAlloc | Undefined.

Inductive result (A : Type) : Type :=
| Ok (a : A) (s : state)
| Stop (f : fault).
Arguments Ok {A} a s.
Arguments Stop {A} f.

Definition M (A : Type) : Type := state -> result A.

Definition ret {A} (a : A) : M A := fun s => Ok a s.

Definition bind {A B} (m : M A) (k : A -> M B) : M B :=
  fun s => match m s with
           | Ok a s' => k a s'
           | Stop f => Stop f
           end.

Declare Scope cxx_scope.
Delimit Scope cxx_scope with cxx.
Notation "x <- m ;; k" := (bind m (fun x => k))
  (at level 100, m at next level, right associativity) : cxx_scope.
Notation "m ;; k" := (bind m (fun _ => k))
  (at level 100, right associativity) : cxx_scope.
Local Open Scope cxx_scope.

Definition undefined {A} : M A := fun _ => Stop Undefined.

Definition lift {A} (o : option A) : M A :=
  match o with Some a => ret a | None => undefined end.

Definition get_this : M DynamicBuffer := fun s => Ok (this s) s.

Definition put_this (b : DynamicBuffer) : M unit :=
  fun s => Ok tt (State (mem s) b).

Definition assign_base (p : pointer) : M unit :=
  b <- get_this ;;
  put_this {| base := p; ptr := ptr b; mark := mark b; size := size b; own := own b |}.

Definition assign_ptr (p : pointer) : M unit :=
  b <- get_this ;;
  put_this {| base := base b; ptr := p; mark := mark b; size := size b; own := own b |}.

Definition assign_mark (p : pointer) : M unit :=
  b <- get_this ;;
  put_this {| base := base b; ptr := ptr b; mark := p; size := size b; own := own b |}.

(** Assignment to the [uint32_t] member converts. *)
Definition assign_size (n : Z) : M unit :=
  b <- get_this ;;
  put_this {| base := base b; ptr := ptr b; mark := mark b;
              size := to_uint32 n; own := own b |}.

(** [new uint8_t[n]]: a fresh block of [n] cells of indeterminate value.  The
    store itself is unbounded; a request no array type can have
    (more than [PTRDIFF_MAX] bytes) throws.  A real free store may also
    refuse a smaller request with [std::bad_alloc]: what is shown of a
    call that allocates holds for the runs in which [new] serves it. *)
Definition new_array (n : Z) : M pointer :=
  fun s =>
    if n <=? PTRDIFF_MAX
    then Ok (Ptr (length (mem s)) 0)
            (State (mem s ++ [Block n Indeterminate true]) (this s))
    else Stop BadAlloc.

(** [delete [] p]: nothing for a null pointer; otherwise [p] has to be the
    start of a block that is still allocated. *)
Definition delete_array (p : pointer) : M unit :=
  fun s =>
    match p with
    | Null => Ok tt s
    | Ptr k o =>
        match mem s !! k with
        | Some B =>
            if live B && (o =? 0)
            then Ok tt (State (<[k := kill B]> (mem s)) (this s))
            else Stop Undefined
        | None => Stop Undefined
        end
    end.

(** [memcpy(dst, src, n)]: both ranges lie in allocated blocks and do not
    overlap.  Copying no byte at all changes nothing, whatever the
    pointers: that such a call is given valid pointers is not checked here
    but by [destination] and [copies_to_region] below. *)
Definition memcpy (dst src : pointer) (n : Z) : M unit :=
  fun s =>
    if n =? 0 then Ok tt s
    else
      match dst, src with
      | Ptr kd od, Ptr ks os =>
          match mem s !! kd, mem s !! ks with
          | Some D, Some Src =>
              if live D && live Src
                 && (0 <=? od) && (od + n <=? blen D)
                 && (0 <=? os) && (os + n <=? blen Src)
                 && negb ((kd =? ks)%nat && (od <? os + n) && (os <? od + n))
              then Ok tt (State (<[kd := Block (blen D)
                                            (Copy (cells D) od (cells Src) os n)
                                            true]> (mem s))
                                (this s))
              else Stop Undefined
          | _, _ => Stop Undefined
          end
      | _, _ => Stop Undefined
      end.

(** ** Member functions *)

(** The constructor: [size(initial_size), own(own_buffer)], then the array. *)
Definition construct (initial_size : Z) (own_buffer : bool) (h : list block)
  : result unit :=
  let b0 := {| base := Null; ptr := Null; mark := Null;
               size := to_uint32 initial_size; own := own_buffer |} in
  (if negb (size b0 =? 0)
   then p <- new_array (size b0) ;;
        assign_mark p ;; assign_ptr p ;; assign_base p
   else assign_mark Null ;; assign_ptr Null ;; assign_base Null)
    (State h b0).

(** The destructor. *)
Definition destroy : M unit :=
  b <- get_this ;;
  if own b then delete_array (base b) else ret tt.

(** [size - (ptr - base)], computed in [ptrdiff_t] and returned as [size_t]. *)
Definition remaining : M Z :=
  b <- get_this ;;
  d <- lift (ptr_diff (ptr b) (base b)) ;;
  ret (to_size_t (size b - d)).

Definition fill : M Z :=
  b <- get_this ;;
  d <- lift (ptr_diff (ptr b) (base b)) ;;
  ret (to_size_t d).

Definition empty : M bool :=
  b <- get_this ;;
  ret (pointer_eqb (ptr b) (base b)).

Definition grow (new_size : Z) (nocopy : bool) : M unit :=
  new_buf <- new_array new_size ;;
  b <- get_this ;;
  (if negb nocopy && negb (is_null (base b))
   then d <- lift (ptr_diff (ptr b) (base b)) ;;
        memcpy new_buf (base b) (to_size_t d)
   else ret tt) ;;
  d <- lift (ptr_diff (ptr b) (base b)) ;;
  p <- lift (ptr_add new_buf d) ;;
  assign_ptr p ;;
  dm <- lift (ptr_diff (mark b) (base b)) ;;
  m <- lift (ptr_add new_buf dm) ;;
  assign_mark m ;;
  (if own b then delete_array (base b) else ret tt) ;;
  assign_base new_buf ;;
  assign_size new_size.

Definition ensure (len : Z) : M unit :=
  r <- remaining ;;
  if len >? r
  then f <- fill ;;
       grow (to_size_t (to_size_t (f + len) * 3) / 2) false
  else ret tt.

Definition reserve (len : Z) (nocopy : bool) : M unit :=
  r <- remaining ;;
  if len >? r
  then f <- fill ;;
       grow (to_size_t (f + len)) nocopy
  else ret tt.

Definition add_unchecked (data : pointer) (len : Z) : M pointer :=
  if is_null data then ret Null
  else
    b <- get_this ;;
    let rptr := ptr b in
    memcpy (ptr b) data len ;;
    p <- lift (ptr_add (ptr b) len) ;;
    assign_ptr p ;;
    ret rptr.

Definition add (data : pointer) (len : Z) : M pointer :=
  ensure len ;;
  add_unchecked data len.

Definition clear : M unit :=
  b <- get_this ;;
  assign_ptr (base b).

Definition set (data : pointer) (len : Z) : M unit :=
  clear ;;
  reserve len false ;;
  add_unchecked data len ;;
  ret tt.

Definition set_mark : M unit :=
  b <- get_this ;;
  assign_mark (ptr b).

Definition free : M unit :=
  b <- get_this ;;
  (if own b then delete_array (base b) else ret tt) ;;
  assign_mark Null ;; assign_ptr Null ;; assign_base Null ;;
  assign_size 0.

(** [release(lenp)]: [want_len] tells whether [lenp] is not null; the second
    component of the result is what was stored through it. *)
Definition release (want_len : bool) : M (pointer * option Z) :=
  b <- get_this ;;
  let rbuf := base b in
  lenp <- (if want_len then f <- fill ;; ret (Some f) else ret None) ;;
  assign_mark Null ;; assign_base Null ;; assign_ptr Null ;;
  assign_size 0 ;;
  ret (rbuf, lenp).

(** ** Well-formed states *)

(** The states the member functions are meant to work on: the three
    pointers are all null and [size] is zero, or they point into one
    allocated block, [base <= ptr] inside it, the [size] bytes after [base]
    belong to it, and an owning buffer starts at the beginning of its
    block (so that [delete []] may be applied to it). *)
Definition well_formed (s : state) : bool :=
  let b := this s in
  (0 <=? size b) && (size b <? uint32_modulus) &&
  match base b, ptr b, mark b with
  | Null, Null, Null => size b =? 0
  | Ptr k bo, Ptr kp po, Ptr km mo =>
      (kp =? k)%nat && (km =? k)%nat &&
      match mem s !! k with
      | Some B =>
          live B && (0 <=? bo) && (bo <=? po) && (po <=? blen B)
          && (bo + size b <=? blen B) && (blen B <=? PTRDIFF_MAX)
          && implb (own b) (bo =? 0)
      | None => false
      end
  | _, _, _ => false
  end.

(** The used part does not exceed the recorded capacity. *)
Definition within_capacity (s : state) : bool :=
  match ptr_diff (ptr (this s)) (base (this s)) with
  | Some d => d <=? size (this s)
  | None => false
  end.

(** The block a pointer points into is still allocated. *)
Definition allocated (h : list block) (p : pointer) : bool :=
  match p with
  | Null => false
  | Ptr k _ => match h !! k with Some B => live B | None => false end
  end.

(** The first [n] cells at [p]. *)
Definition bytes_at (h : list block) (p : pointer) (n : nat) : list (option Byte.byte) :=
  match p with
  | Null => []
  | Ptr k o =>
      match h !! k with
      | Some B => map (fun i => cell (cells B) (o + Z.of_nat i)) (seq 0 n)
      | None => []
      end
  end.

(** A block holding the bytes of a list, for examples. *)
Definition block_of (l : list Byte.byte) : block :=
  Block (Z.of_nat (length l)) (Bytes l) true.

(** [well_formed] as a proposition. *)
Inductive shape (s : state) : Prop :=
| Unallocated :
    base (this s) = Null -> ptr (this s) = Null -> mark (this s) = Null ->
    size (this s) = 0 -> shape s
| Allocated k bo po mo B :
    base (this s) = Ptr k bo -> ptr (this s) = Ptr k po ->
    mark (this s) = Ptr k mo ->
    mem s !! k = Some B -> live B = true ->
    0 <= bo <= po -> po <= blen B -> bo + size (this s) <= blen B ->
    blen B <= PTRDIFF_MAX -> (own (this s) = true -> bo = 0) ->
    0 <= size (this s) < uint32_modulus ->
    shape s.

(** The cells of the block [grow] allocates. *)
Definition grown_cells (nocopy : bool) (old : content) (bo n : Z) : content :=
  if nocopy || (n =? 0) then Indeterminate
  else Copy Indeterminate 0 old bo n.

(** ** States used as examples *)

(** A source buffer holding "abc" and one holding "de". *)
Definition sources : list block :=
  [block_of [x61; x62; x63]; block_of [x64; x65]].

(** An owning buffer of capacity 4 holding "abc", bookmark after "ab". *)
Definition sample : state :=
  State (sources ++ [Block 4 (Bytes [x61; x62; x63]) true])
        {| base := Ptr 2 0; ptr := Ptr 2 3; mark := Ptr 2 2;
           size := 4; own := true |}.

(** The same buffer, borrowed: it does not own its region. *)
Definition borrowed : state :=
  State (mem sample)
        {| base := Ptr 2 0; ptr := Ptr 2 3; mark := Ptr 2 2;
           size := 4; own := false |}.

(** A source of 4 GiB, every byte of it 'A'. *)
Definition huge_source : list block :=
  [Block 4294967296 (Repeat x41) true].

(** ** Sequences of appends *)

(** The block a pointer points into. *)
Definition region (p : pointer) : option nat :=
  match p with Null => None | Ptr k _ => Some k end.

(** [len] bytes can be read at [data], from an allocated block that is not
    the region of the buffer. *)
Definition readable_source (s : state) (src : pointer * Z) : bool :=
  let (data, len) := src in
  match data with
  | Null => false
  | Ptr k o =>
      match mem s !! k with
      | Some B =>
          live B && (0 <=? o) && (0 <=? len) && (o + len <=? blen B)
          && negb (bool_decide (region (base (this s)) = Some k))
      | None => false
      end
  end.

(** [add(data_1, len_1); ...; add(data_n, len_n)]. *)
Fixpoint add_all (l : list (pointer * Z)) : M unit :=
  match l with
  | [] => ret tt
  | (data, len) :: l' => add data len ;; add_all l'
  end.

(** The sum of the lengths. *)
Definition total (l : list (pointer * Z)) : Z :=
  fold_right (fun src acc => snd src + acc) 0 l.

(** ** Calls of the public member functions *)

(** One call of a public member function, return value dropped. *)
Inductive call : Type :=
| Ensure (len : Z)
| Reserve (len : Z) (nocopy : bool)
| AddUnchecked (data : pointer) (len : Z)
| Add (data : pointer) (len : Z)
| Overwrite (data : pointer) (len : Z)
| Clear
| SetMark
| Free
| Release (want_len : bool).

Definition invoke (c : call) : M unit :=
  match c with
  | Ensure len => ensure len
  | Reserve len nocopy => reserve len nocopy
  | AddUnchecked data len => add_unchecked data len ;; ret tt
  | Add data len => add data len ;; ret tt
  | Overwrite data len => set data len
  | Clear => clear
  | SetMark => set_mark
  | Free => free
  | Release want_len => release want_len ;; ret tt
  end.

(** The distance of the cursor from [base] (0 where it is not defined). *)
Definition used (s : state) : Z :=
  match ptr_diff (ptr (this s)) (base (this s)) with
  | Some d => d
  | None => 0
  end.

(** The buffer has a region. *)
Definition has_region (s : state) : bool := negb (is_null (base (this s))).

(** The bookmark lies between [base] and [base + size]. *)
Definition mark_within_capacity (s : state) : bool :=
  match ptr_diff (mark (this s)) (base (this s)) with
  | Some m => (0 <=? m) && (m <=? size (this s))
  | None => false
  end.

(** A data pointer a caller may pass to [add] or [set]: null, or readable
    for [len] bytes outside the buffer.  An append of no bytes to a buffer
    without a region is left out: it would hand the null cursor to
    [memcpy]. *)
Definition source_ok (s : state) (data : pointer) (len : Z) : bool :=
  is_null data
  || (readable_source s (data, len) && (has_region s || (0 <? len))).

(** What a call requires of its arguments in state [s]: lengths are not
    negative, the sizes [grow] may be asked for stay below 2^32, data can be
    read, and the unchecked append has a region and the room it needs. *)
Definition admissible (s : state) (c : call) : bool :=
  match c with
  | Ensure len =>
      (0 <=? len) && ((used s + len) * 3 / 2 <? uint32_modulus)
  | Reserve len _ =>
      (0 <=? len) && (used s + len <? uint32_modulus)
  | AddUnchecked data len =>
      is_null data
      || (readable_source s (data, len) && (used s + len <=? size (this s))
          && has_region s)
  | Add data len =>
      (0 <=? len) && ((used s + len) * 3 / 2 <? uint32_modulus)
      && source_ok s data len
  | Overwrite data len =>
      (0 <=? len) && (len <? uint32_modulus) && source_ok s data len
  | Clear | SetMark | Free | Release _ => true
  end.

(** The destination [add_unchecked] hands to [memcpy] in a call made in
    state [s]: the cursor at that moment, after the [ensure] of [add] or the
    [clear] and [reserve] of [set].  Calls that copy nothing from [data]
    have none. *)
Definition destination (c : call) (s : state) : option pointer :=
  match c with
  | AddUnchecked data _ =>
      if is_null data then None else Some (ptr (this s))
  | Add data len =>
      if is_null data then None
      else match ensure len s with
           | Ok _ s1 => Some (ptr (this s1))
           | Stop _ => None
           end
  | Overwrite data len =>
      if is_null data then None
      else match (clear ;; reserve len false) s with
           | Ok _ s1 => Some (ptr (this s1))
           | Stop _ => None
           end
  | _ => None
  end.

(** The calls that leave the bookmark where it is in the data. *)
Definition keeps_mark (c : call) : bool :=
  match c with
  | SetMark | Free | Release _ => false
  | _ => true
  end.

(** The bytes between the cursor and the end of the block it points into. *)
Definition room_in_block (s : state) : Z :=
  match ptr (this s) with
  | Null => 0
  | Ptr k po =>
      match mem s !! k with
      | Some B => blen B - po
      | None => 0
      end
  end.

(** A sequence of calls, one after the other. *)
Fixpoint invoke_all (cs : list call) : M unit :=
  match cs with
  | [] => ret tt
  | c :: cs' => invoke c ;; invoke_all cs'
  end.

(** Every call of the sequence is admissible in the state it is made in. *)
Fixpoint admissible_all (s : state) (cs : list call) : bool :=
  match cs with
  | [] => true
  | c :: cs' =>
      admissible s c
      && match invoke c s with
         | Ok _ s' => admissible_all s' cs'
         | Stop _ => true
         end
  end.

(** No call of the sequence hands a null destination to [memcpy]. *)
Fixpoint copies_to_region (s : state) (cs : list call) : bool :=
  match cs with
  | [] => true
  | c :: cs' =>
      match destination c s with
      | Some p => negb (is_null p)
      | None => true
      end
      && match invoke c s with
         | Ok _ s' => copies_to_region s' cs'
         | Stop _ => true
         end
  end.

(** * Properties *)

(** ** Integer conversions *)

Lemma to_size_t_small z : 0 <= z < size_t_modulus -> to_size_t z = z.
Proof. intros H. unfold to_size_t. apply Z.mod_small. exact H. Qed.

Lemma to_uint32_small z : 0 <= z < uint32_modulus -> to_uint32 z = z.
Proof. intros H. unfold to_uint32. apply Z.mod_small. exact H. Qed.

Lemma to_uint32_range z : 0 <= to_uint32 z < uint32_modulus.
Proof. unfold to_uint32. apply Z.mod_pos_bound. reflexivity. Qed.

Lemma to_uint32_wraps z : uint32_modulus <= z -> to_uint32 z < z.
Proof. intros H. pose proof (to_uint32_range z). lia. Qed.

Lemma gtb_false a b : a <= b -> (a >? b) = false.
Proof. intros H. rewrite Z.gtb_ltb. apply Z.ltb_ge. exact H. Qed.

Lemma gtb_true a b : b < a -> (a >? b) = true.
Proof. intros H. rewrite Z.gtb_ltb. apply Z.ltb_lt. exact H. Qed.

Lemma moduli : uint32_modulus = 4294967296
               /\ size_t_modulus = 18446744073709551616
               /\ PTRDIFF_MAX = 9223372036854775807.
Proof. repeat split. Qed.

Lemma three_halves x : 0 <= x -> x <= x * 3 / 2.
Proof. intros H. apply Z.div_le_lower_bound; lia. Qed.

(** ** Pointers *)

Lemma ptr_diff_self p : ptr_diff p p = Some 0.
Proof.
  destruct p as [|k i]; simpl; [reflexivity|].
  rewrite Nat.eqb_refl. f_equal. lia.
Qed.

Lemma pointer_eqb_refl p : pointer_eqb p p = true.
Proof.
  destruct p as [|k i]; simpl; [reflexivity|].
  rewrite Nat.eqb_refl, Z.eqb_refl. reflexivity.
Qed.

(** ** Computations *)

Lemma bind_ok {A B} (m : M A) (k : A -> M B) s a s1 :
  m s = Ok a s1 -> bind m k s = k a s1.
Proof. intros H. unfold bind. rewrite H. reflexivity. Qed.

Lemma bind_inv {A B} (m : M A) (k : A -> M B) s b s2 :
  bind m k s = Ok b s2 -> exists a s1, m s = Ok a s1 /\ k a s1 = Ok b s2.
Proof.
  unfold bind. destruct (m s) as [a s1|f]; [|discriminate].
  intros H. exists a, s1. split; [reflexivity|exact H].
Qed.

Lemma bind_ret {A B} (a : A) (k : A -> M B) : bind (ret a) k = k a.
Proof. reflexivity. Qed.

Lemma bind_assoc {A B C} (m : M A) (k : A -> M B) (k' : B -> M C) s :
  bind (bind m k) k' s = bind m (fun a => bind (k a) k') s.
Proof. unfold bind. destruct (m s); reflexivity. Qed.

(** Symbolic execution of the straight-line part of a member function. *)
Ltac cxx_goal :=
  repeat progress
    (cbn [bind ret lift undefined get_this put_this
          assign_base assign_ptr assign_mark assign_size
          mem this base ptr mark size own is_null negb andb orb];
     rewrite ?bind_ret; cbn beta).

Ltac cxx_hyp H :=
  repeat progress
    (cbn [bind ret lift undefined get_this put_this
          assign_base assign_ptr assign_mark assign_size
          mem this base ptr mark size own is_null negb andb orb] in H;
     rewrite ?bind_ret in H; cbn beta in H).

Tactic Notation "cxx" := cxx_goal.
Tactic Notation "cxx" "in" hyp(H) := cxx_hyp H.

Lemma well_formed_shape s : well_formed s = true -> shape s.
Proof.
  unfold well_formed. intros H.
  apply andb_prop in H as [H H3]. apply andb_prop in H as [H1 H2].
  apply Z.leb_le in H1. apply Z.ltb_lt in H2.
  destruct (base (this s)) as [|k bo] eqn:Eb;
    destruct (ptr (this s)) as [|kp po] eqn:Ep;
    destruct (mark (this s)) as [|km mo] eqn:Em; try discriminate.
  - apply Z.eqb_eq in H3. apply Unallocated; assumption.
  - apply andb_prop in H3 as [H3 H4]. apply andb_prop in H3 as [Hp Hm].
    apply Nat.eqb_eq in Hp, Hm. subst kp km.
    destruct (mem s !! k) as [B|] eqn:EB; [|discriminate].
    repeat match type of H4 with
           | _ && _ = true => apply andb_prop in H4 as [H4 ?]
           end.
    repeat match goal with
           | H : (_ <=? _) = true |- _ => apply Z.leb_le in H
           end.
    apply (Allocated s k bo po mo B); try assumption; try lia.
    intros Ho. rewrite Ho in *. simpl in *. apply Z.eqb_eq. assumption.
Qed.

Lemma shape_well_formed s : shape s -> well_formed s = true.
Proof.
  intros [Hb Hp Hm Hs | k bo po mo B Hb Hp Hm HB Hl Hbo Hpo Hsz HL Ho Hs];
    unfold well_formed; rewrite Hb, Hp, Hm.
  - rewrite Hs. reflexivity.
  - rewrite HB, Hl, Nat.eqb_refl. simpl.
    repeat (apply andb_true_intro; split);
      try (apply Z.leb_le; lia); try (apply Z.ltb_lt; lia).
    destruct (own (this s)); simpl; [|reflexivity].
    apply Z.eqb_eq. apply Ho. reflexivity.
Qed.

(** ** The free store *)

Lemma lookup_new_block (h : list block) (B : block) :
  (h ++ [B]) !! length h = Some B.
Proof. rewrite lookup_app_r by lia. rewrite Nat.sub_diag. reflexivity. Qed.

Lemma lookup_old_block (h : list block) (B N : block) k :
  h !! k = Some B -> (h ++ [N]) !! k = Some B.
Proof. intros H. rewrite lookup_app_l; [exact H|]. eapply lookup_lt_Some, H. Qed.

Lemma insert_new_block (h : list block) (B N : block) :
  <[length h := N]> (h ++ [B]) = h ++ [N].
Proof.
  rewrite insert_app_r_alt by lia. rewrite Nat.sub_diag. reflexivity.
Qed.

Lemma insert_old_block (h : list block) (B N : block) k :
  (k < length h)%nat -> <[k := B]> (h ++ [N]) = <[k := B]> h ++ [N].
Proof. intros H. apply insert_app_l. exact H. Qed.

(** ** [grow] *)

Lemma grown_cells_copy old bo n i :
  0 <= i < n -> cell (grown_cells false old bo n) i = cell old (bo + i).
Proof.
  intros H. unfold grown_cells. simpl.
  destruct (n =? 0) eqn:E; [apply Z.eqb_eq in E; lia|].
  simpl.
  replace ((0 <=? i) && (i <? 0 + n)) with true
    by (symmetry; apply andb_true_intro; split;
        [apply Z.leb_le|apply Z.ltb_lt]; lia).
  f_equal. lia.
Qed.

(** [grow] on a buffer without a region. *)
Lemma grow_unallocated n nocopy s :
  base (this s) = Null -> ptr (this s) = Null -> mark (this s) = Null ->
  n <= PTRDIFF_MAX ->
  grow n nocopy s =
  Ok tt (State (mem s ++ [Block n Indeterminate true])
               {| base := Ptr (length (mem s)) 0;
                  ptr := Ptr (length (mem s)) 0;
                  mark := Ptr (length (mem s)) 0;
                  size := to_uint32 n;
                  own := own (this s) |}).
Proof.
  intros Hb Hp Hm Hn. destruct s as [h [b p m sz o]]. simpl in *. subst.
  unfold grow, new_array. cxx.
  apply Z.leb_le in Hn. rewrite Hn.
  destruct nocopy, o; reflexivity.
Qed.

Lemma delete_array_live h b k B :
  h !! k = Some B -> live B = true ->
  delete_array (Ptr k 0) (State h b) = Ok tt (State (<[k := kill B]> h) b).
Proof.
  intros HB Hl. unfold delete_array. cxx. rewrite HB, Hl. reflexivity.
Qed.

(** The copy [grow] makes into the block it has just allocated. *)
Lemma memcpy_into_new_block h n k bo len B b :
  h !! k = Some B -> live B = true ->
  0 <= bo -> bo + len <= blen B -> 0 <= len <= n ->
  memcpy (Ptr (length h) 0) (Ptr k bo) len
         (State (h ++ [Block n Indeterminate true]) b)
  = Ok tt (State (h ++ [Block n (grown_cells false (cells B) bo len) true]) b).
Proof.
  intros HB Hl Hbo Hlen Hn.
  assert (Hk : (k < length h)%nat) by (eapply lookup_lt_Some, HB).
  unfold memcpy, grown_cells. cxx.
  destruct (len =? 0) eqn:E0; [reflexivity|].
  rewrite lookup_new_block, (lookup_old_block _ _ _ _ HB). cbn [blen cells live].
  rewrite Hl.
  replace (length h =? k)%nat with false
    by (symmetry; apply Nat.eqb_neq; lia).
  replace (0 + len <=? n) with true by (symmetry; apply Z.leb_le; lia).
  replace (0 <=? bo) with true by (symmetry; apply Z.leb_le; lia).
  replace (bo + len <=? blen B) with true by (symmetry; apply Z.leb_le; lia).
  cbn [andb negb Z.leb Z.compare]. rewrite insert_new_block. reflexivity.
Qed.

(** [grow] on a buffer with a region: the new block receives the used bytes
    (unless [nocopy]), the pointers keep their offsets from [base], the old
    block is released when the buffer owns it, and [own] stays as it was. *)
Lemma grow_allocated n nocopy s k bo po mo B :
  base (this s) = Ptr k bo -> ptr (this s) = Ptr k po ->
  mark (this s) = Ptr k mo ->
  mem s !! k = Some B -> live B = true ->
  0 <= bo <= po -> po <= blen B -> blen B <= PTRDIFF_MAX ->
  (own (this s) = true -> bo = 0) ->
  n <= PTRDIFF_MAX -> (nocopy = false -> po - bo <= n) ->
  grow n nocopy s =
  Ok tt (State ((if own (this s) then <[k := kill B]> (mem s) else mem s)
                  ++ [Block n (grown_cells nocopy (cells B) bo (po - bo)) true])
               {| base := Ptr (length (mem s)) 0;
                  ptr := Ptr (length (mem s)) (0 + (po - bo));
                  mark := Ptr (length (mem s)) (0 + (mo - bo));
                  size := to_uint32 n;
                  own := own (this s) |}).
Proof.
  intros Hb Hp Hm HB Hl Hbo Hpo HL Ho Hn Hfit.
  destruct s as [h [b p m sz o]]. simpl in *. subst.
  assert (Hk : (k < length h)%nat) by (eapply lookup_lt_Some, HB).
  assert (Hmax := proj2 (proj2 moduli)).
  assert (Hmod := proj1 (proj2 moduli)).
  unfold grow, new_array. cxx.
  apply Z.leb_le in Hn. rewrite Hn. cxx.
  simpl ptr_diff. rewrite Nat.eqb_refl. simpl ptr_add.
  assert (Hdel : forall C p' m',
    (if o then delete_array (Ptr k bo) else ret tt)
      (State (h ++ [Block n C true])
             {| base := Ptr k bo; ptr := p'; mark := m'; size := sz; own := o |})
    = Ok tt (State ((if o then <[k := kill B]> h else h) ++ [Block n C true])
                   {| base := Ptr k bo; ptr := p'; mark := m'; size := sz; own := o |})).
  { intros C p' m'. destruct o; [|reflexivity].
    rewrite (Ho eq_refl).
    rewrite (delete_array_live _ _ k B) by (auto using lookup_old_block).
    rewrite insert_old_block by exact Hk. reflexivity. }
  destruct nocopy; cxx.
  - rewrite (bind_ok _ _ _ _ _ (Hdel _ _ _)). reflexivity.
  - rewrite (to_size_t_small (po - bo)) by lia.
    rewrite (bind_ok _ _ _ _ _
               (memcpy_into_new_block h n k bo (po - bo) B _ HB Hl
                  (proj1 Hbo) ltac:(lia) ltac:(specialize (Hfit eq_refl); lia))).
    cxx. rewrite (bind_ok _ _ _ _ _ (Hdel _ _ _)). reflexivity.
Qed.

(** ** Queries *)


Lemma fill_allocated s k bo po :
  base (this s) = Ptr k bo -> ptr (this s) = Ptr k po ->
  fill s = Ok (to_size_t (po - bo)) s.
Proof.
  intros Hb Hp. unfold fill. cxx. rewrite Hb, Hp. simpl ptr_diff.
  rewrite Nat.eqb_refl. reflexivity.
Qed.



Lemma fill_diff s d :
  ptr_diff (ptr (this s)) (base (this s)) = Some d ->
  fill s = Ok (to_size_t d) s.
Proof. intros H. unfold fill. cxx. rewrite H. reflexivity. Qed.

Lemma remaining_diff s d :
  ptr_diff (ptr (this s)) (base (this s)) = Some d ->
  remaining s = Ok (to_size_t (size (this s) - d)) s.
Proof. intros H. unfold remaining. cxx. rewrite H. reflexivity. Qed.

Lemma Ok_inj {A} (a a' : A) s s' : Ok a s = Ok a' s' -> a = a' /\ s = s'.
Proof. intros H. injection H. auto. Qed.

(** ** Bookmark and cursor under growth *)

(** C4: on every well-formed buffer (bookmark set or not), a growth to
    [n] bytes returns, and afterwards the cursor is the new base plus the
    old distance of the cursor from the old base, and the bookmark is the
    new base plus the old distance of the bookmark from the old base: both
    keep their offsets in the data. *)
Theorem grow_preserves_offsets n nocopy s f :
  well_formed s = true -> fill s = Ok f s ->
  0 <= n <= PTRDIFF_MAX -> (nocopy = false -> f <= n) ->
  exists s' d dm,
    grow n nocopy s = Ok tt s' /\
    ptr_diff (ptr (this s)) (base (this s)) = Some d /\
    ptr_diff (mark (this s)) (base (this s)) = Some dm /\
    base (this s') = Ptr (length (mem s)) 0 /\
    ptr_add (base (this s')) d = Some (ptr (this s')) /\
    ptr_add (base (this s')) dm = Some (mark (this s')) /\
    ptr_diff (ptr (this s')) (base (this s')) = Some d /\
    ptr_diff (mark (this s')) (base (this s')) = Some dm.
Proof.
  intros Hwf Hf [_ Hn] Hfit.
  destruct (well_formed_shape s Hwf)
    as [Hb Hp Hm Hs | k bo po mo B Hb Hp Hm HB Hl Hbo Hpo Hsz HL Ho Hs].
  - rewrite (grow_unallocated n nocopy s Hb Hp Hm Hn).
    eexists _, 0, 0. split; [reflexivity|].
    rewrite Hb, Hp, Hm. cbn [this base ptr mark ptr_add ptr_diff].
    rewrite Nat.eqb_refl. repeat split.
  - destruct moduli as (M32 & M64 & Mmax).
    rewrite (fill_allocated s k bo po Hb Hp) in Hf.
    apply Ok_inj in Hf as [Hf _].
    rewrite to_size_t_small in Hf by lia.
    subst f.
    rewrite (grow_allocated n nocopy s k bo po mo B) by assumption.
    eexists _, (po - bo), (mo - bo). split; [reflexivity|].
    rewrite Hb, Hp, Hm. cbn [this base ptr mark ptr_add ptr_diff].
    rewrite !Nat.eqb_refl.
    repeat split; f_equal; lia.
Qed.

Lemma grow_preserves_offsets_witness :
  well_formed sample = true /\ fill sample = Ok 3 sample /\
  0 <= 8 <= PTRDIFF_MAX /\
  exists s' d dm,
    grow 8 false sample = Ok tt s' /\
    ptr_diff (ptr (this sample)) (base (this sample)) = Some d /\
    ptr_diff (mark (this sample)) (base (this sample)) = Some dm /\
    base (this s') = Ptr (length (mem sample)) 0 /\
    ptr_add (base (this s')) d = Some (ptr (this s')) /\
    ptr_add (base (this s')) dm = Some (mark (this s')) /\
    ptr_diff (ptr (this s')) (base (this s')) = Some d /\
    ptr_diff (mark (this s')) (base (this s')) = Some dm.
Proof.
  split; [reflexivity|]. split; [reflexivity|].
  split; [unfold PTRDIFF_MAX; lia|].
  apply (grow_preserves_offsets 8 false sample 3);
    [reflexivity | reflexivity | unfold PTRDIFF_MAX; lia | intros _; lia].
Defined.

(** ** What the primitives change *)

Lemma lift_inv {A} (o : option A) s a s' :
  lift o s = Ok a s' -> o = Some a /\ s' = s.
Proof.
  destruct o as [x|]; [|discriminate].
  intros H. apply Ok_inj in H as [-> ->]. split; reflexivity.
Qed.

Lemma new_array_inv n s p s' :
  new_array n s = Ok p s' ->
  n <= PTRDIFF_MAX /\ p = Ptr (length (mem s)) 0 /\
  s' = State (mem s ++ [Block n Indeterminate true]) (this s).
Proof.
  unfold new_array. destruct (n <=? PTRDIFF_MAX) eqn:E; [|discriminate].
  intros H. apply Ok_inj in H as [<- <-]. apply Z.leb_le in E. auto.
Qed.

Lemma memcpy_inv dst src n s s' :
  memcpy dst src n s = Ok tt s' ->
  this s' = this s /\
  (mem s' = mem s \/
   exists kd od D C,
     dst = Ptr kd od /\ mem s !! kd = Some D /\ live D = true /\
     0 <= od /\ od + n <= blen D /\
     mem s' = <[kd := Block (blen D) C true]> (mem s)).
Proof.
  unfold memcpy. destruct (n =? 0).
  { intros H. apply Ok_inj in H as [_ <-]. auto. }
  destruct dst as [|kd od]; [discriminate|].
  destruct src as [|ks os]; [discriminate|].
  destruct (mem s !! kd) as [D|] eqn:ED; [|discriminate].
  destruct (mem s !! ks) as [Src|] eqn:ES; [|discriminate].
  match goal with |- (if ?c then _ else _) = _ -> _ => destruct c eqn:Ec end;
    [|discriminate].
  intros H. apply Ok_inj in H as [_ <-]. split; [reflexivity|]. right.
  repeat match type of Ec with
         | _ && _ = true => apply andb_prop in Ec as [Ec ?]
         end.
  repeat match goal with
         | H : (_ <=? _) = true |- _ => apply Z.leb_le in H
         end.
  exists kd, od, D. eexists. repeat split; try eassumption; reflexivity.
Qed.

Lemma delete_array_inv p s s' :
  delete_array p s = Ok tt s' ->
  this s' = this s /\
  (p = Null /\ mem s' = mem s \/
   exists k B, p = Ptr k 0 /\ mem s !! k = Some B /\ live B = true /\
               mem s' = <[k := kill B]> (mem s)).
Proof.
  unfold delete_array. destruct p as [|k o].
  { intros H. apply Ok_inj in H as [_ <-]. auto. }
  destruct (mem s !! k) as [B|] eqn:EB; [|discriminate].
  destruct (live B) eqn:El; [|discriminate].
  destruct (o =? 0) eqn:Eo; [|discriminate].
  apply Z.eqb_eq in Eo. subst o.
  intros H. apply Ok_inj in H as [_ <-]. split; [reflexivity|]. right.
  exists k, B. auto.
Qed.


(** Every call of [grow] that returns: what it recorded and allocated. *)
Lemma grow_inv n nocopy s s' :
  grow n nocopy s = Ok tt s' ->
  n <= PTRDIFF_MAX /\
  size (this s') = to_uint32 n /\
  own (this s') = own (this s) /\
  base (this s') = Ptr (length (mem s)) 0 /\
  (exists d, ptr_diff (ptr (this s)) (base (this s)) = Some d /\
             ptr (this s') = Ptr (length (mem s)) (0 + d)) /\
  (exists dm, ptr_diff (mark (this s)) (base (this s)) = Some dm /\
              mark (this s') = Ptr (length (mem s)) (0 + dm)) /\
  length (mem s') = S (length (mem s)) /\
  (exists B, mem s' !! length (mem s) = Some B /\ blen B = n) /\
  (own (this s) = false ->
   forall j, (j < length (mem s))%nat -> mem s' !! j = mem s !! j).
Proof.
  unfold grow. intros H.
  apply bind_inv in H as (new_buf & s1 & Hnew & H).
  apply new_array_inv in Hnew as (Hn & -> & ->).
  cxx in H. destruct s as [h b]. cbn [mem this] in *.
  apply bind_inv in H as ([] & s2 & Hcopy & H).
  assert (Hs2 : this s2 = b /\
                length (mem s2) = S (length h) /\
                (exists B, mem s2 !! length h = Some B /\ blen B = n) /\
                (forall j, (j < length h)%nat -> mem s2 !! j = h !! j)).
  { assert (Hfresh : this (State (h ++ [Block n Indeterminate true]) b) = b /\
              length (h ++ [Block n Indeterminate true]) = S (length h) /\
              (exists B, (h ++ [Block n Indeterminate true]) !! length h = Some B
                         /\ blen B = n) /\
              (forall j, (j < length h)%nat ->
                 (h ++ [Block n Indeterminate true]) !! j = h !! j)).
    { split; [reflexivity|]. split; [rewrite length_app; simpl; lia|].
      split; [eexists; split; [apply lookup_new_block|reflexivity]|].
      intros j Hj. apply lookup_app_l. exact Hj. }
    destruct (negb nocopy && negb (is_null (base b))).
    - apply bind_inv in Hcopy as (d & s1 & Hd & Hcopy).
      apply lift_inv in Hd as [_ ->].
      apply memcpy_inv in Hcopy as [Hthis [Hmem|Hmem]].
      + destruct s2 as [h2 b2]. cbn [mem this] in *. subst. exact Hfresh.
      + destruct Hmem as (kd & od & D & C & Hdst & HD & _ & _ & _ & Hmem).
        injection Hdst as <- <-. cbn [mem] in HD, Hmem.
        rewrite lookup_new_block in HD. injection HD as <-.
        rewrite insert_new_block in Hmem. cbn [blen] in Hmem.
        destruct s2 as [h2 b2]. cbn [mem this] in *. subst.
        split; [reflexivity|]. split; [rewrite length_app; simpl; lia|].
        split; [eexists; split; [apply lookup_new_block|reflexivity]|].
        intros j Hj. apply lookup_app_l. exact Hj.
    - apply Ok_inj in Hcopy as [_ <-]. exact Hfresh. }
  destruct s2 as [h2 b2]. cbn [mem this] in Hs2.
  destruct Hs2 as (-> & Hlen & HB & Hframe).
  apply bind_inv in H as (d & s3 & Hd & H).
  apply lift_inv in Hd as [Hd ->].
  apply bind_inv in H as (p & s3 & Hp & H).
  apply lift_inv in Hp as [Hp ->]. cbn [ptr_add] in Hp. injection Hp as <-.
  cxx in H.
  apply bind_inv in H as (dm & s3 & Hdm & H).
  apply lift_inv in Hdm as [Hdm ->].
  apply bind_inv in H as (m & s3 & Hm & H).
  apply lift_inv in Hm as [Hm ->]. cbn [ptr_add] in Hm. injection Hm as <-.
  cxx in H.
  apply bind_inv in H as ([] & s3 & Hdel & H).
  assert (Hs3 : this s3 = {| base := base b; ptr := Ptr (length h) (0 + d);
                             mark := Ptr (length h) (0 + dm);
                             size := size b; own := own b |} /\
                length (mem s3) = S (length h) /\
                (exists B, mem s3 !! length h = Some B /\ blen B = n) /\
                (own b = false ->
                 forall j, (j < length h)%nat -> mem s3 !! j = h !! j)).
  { destruct (own b).
    - apply delete_array_inv in Hdel as [Hthis [[_ Hmem]|Hmem]];
        cbn [mem this] in *.
      + rewrite Hmem. repeat split; try assumption. discriminate.
      + destruct Hmem as (k & B & _ & Hk & _ & Hmem). rewrite Hmem.
        split; [exact Hthis|]. split; [rewrite length_insert; exact Hlen|].
        split; [|discriminate].
        destruct HB as (N & HN & HNlen).
        destruct (decide (k = length h)) as [->|Hne].
        * rewrite HN in Hk. injection Hk as <-.
          exists (kill N). split; [|exact HNlen].
          apply list_lookup_insert_eq. lia.
        * exists N. split; [|exact HNlen].
          rewrite list_lookup_insert_ne by exact Hne. exact HN.
    - apply Ok_inj in Hdel as [_ <-]. cbn [mem this].
      repeat split; try assumption. intros _. exact Hframe. }
  destruct s3 as [h3 b3]. cbn [mem this] in Hs3.
  destruct Hs3 as (-> & Hlen3 & HB3 & Hframe3).
  cxx in H. apply Ok_inj in H as [_ <-]. cbn [mem this base ptr mark size own].
  repeat split; try assumption.
  - exists d. auto.
  - exists dm. auto.
Qed.

Lemma used_range s d :
  shape s -> ptr_diff (ptr (this s)) (base (this s)) = Some d ->
  0 <= d <= PTRDIFF_MAX.
Proof.
  intros [Hb Hp Hm Hs | k bo po mo B Hb Hp Hm HB Hl Hbo Hpo Hsz HL Ho Hs];
    rewrite Hb, Hp; simpl.
  - intros [= <-]. unfold PTRDIFF_MAX. lia.
  - rewrite Nat.eqb_refl. intros [= <-]. lia.
Qed.

Lemma fill_shape s :
  shape s ->
  exists d, ptr_diff (ptr (this s)) (base (this s)) = Some d /\
            fill s = Ok d s /\ 0 <= d <= PTRDIFF_MAX.
Proof.
  intros Hs.
  assert (Hd : exists d, ptr_diff (ptr (this s)) (base (this s)) = Some d).
  { destruct Hs as [Hb Hp _ _ | k bo po mo B Hb Hp _ _ _ _ _ _ _ _ _];
      rewrite Hb, Hp; simpl; [|rewrite Nat.eqb_refl]; eauto. }
  destruct Hd as [d Hd]. exists d.
  pose proof (used_range s d Hs Hd) as Hr.
  destruct moduli as (_ & M64 & Mmax).
  split; [exact Hd|]. split; [|exact Hr].
  unfold fill. cxx. rewrite Hd. cxx.
  rewrite to_size_t_small by lia. reflexivity.
Qed.

(** [grow] on a well-formed buffer, in one statement: the store after it is
    the old one, with the old region released when the buffer owns it,
    followed by the new block. *)
Lemma grow_shape n nocopy s d :
  shape s -> ptr_diff (ptr (this s)) (base (this s)) = Some d ->
  n <= PTRDIFF_MAX -> (nocopy = false -> d <= n) ->
  exists dm h' C,
    ptr_diff (mark (this s)) (base (this s)) = Some dm /\
    grow n nocopy s =
    Ok tt (State (h' ++ [Block n C true])
                 {| base := Ptr (length (mem s)) 0;
                    ptr := Ptr (length (mem s)) d;
                    mark := Ptr (length (mem s)) dm;
                    size := to_uint32 n;
                    own := own (this s) |}) /\
    length h' = length (mem s) /\
    (own (this s) = false -> h' = mem s) /\
    (forall j, (forall o, base (this s) <> Ptr j o) -> h' !! j = mem s !! j) /\
    (own (this s) = true -> forall k o, base (this s) = Ptr k o ->
       exists B, mem s !! k = Some B /\ h' !! k = Some (kill B)) /\
    (nocopy = false -> forall k bo B,
       base (this s) = Ptr k bo -> mem s !! k = Some B ->
       forall i, 0 <= i < d -> cell C i = cell (cells B) (bo + i)).
Proof.
  intros Hs Hd Hn Hfit.
  destruct Hs as [Hb Hp Hm Hsz | k bo po mo B Hb Hp Hm HB Hl Hbo Hpo Hsz HL Ho Hs].
  - rewrite Hb, Hp in Hd. simpl in Hd. injection Hd as <-.
    exists 0, (mem s), Indeterminate.
    rewrite (grow_unallocated n nocopy s Hb Hp Hm Hn).
    rewrite Hb, Hm. simpl ptr_diff.
    split; [reflexivity|]. split; [reflexivity|]. split; [reflexivity|].
    split; [reflexivity|]. split; [reflexivity|].
    split; [intros _ k o [=] | intros _ k o B [=]].
  - rewrite Hb, Hp in Hd. simpl in Hd. rewrite Nat.eqb_refl in Hd.
    injection Hd as <-.
    exists (mo - bo), (if own (this s) then <[k := kill B]> (mem s) else mem s),
      (grown_cells nocopy (cells B) bo (po - bo)).
    rewrite (grow_allocated n nocopy s k bo po mo B) by assumption.
    rewrite Hb, Hm. simpl ptr_diff. rewrite Nat.eqb_refl.
    split; [reflexivity|]. split; [reflexivity|].
    split; [destruct (own (this s)); [apply length_insert|reflexivity]|].
    split; [intros ->; reflexivity|].
    split.
    { intros j Hj. destruct (own (this s)); [|reflexivity].
      apply list_lookup_insert_ne. intros ->. exact (Hj bo eq_refl). }
    split.
    { intros -> k' o [= <- <-]. exists B. split; [exact HB|].
      apply list_lookup_insert_eq. eapply lookup_lt_Some, HB. }
    intros -> k' bo' B' [= <- <-] HB' i Hi.
    rewrite HB in HB'. injection HB' as <-.
    apply grown_cells_copy. exact Hi.
Qed.

(** ** Ownership under growth *)

Lemma allocated_new_block (h' : list block) N n C o :
  length h' = N ->
  allocated (h' ++ [Block n C true]) (Ptr N o) = true.
Proof. intros <-. unfold allocated. rewrite lookup_new_block. reflexivity. Qed.

(** C1 (as the code has it): growth leaves [own] as it was.  An owning
    buffer releases its old region when it grows, and its destructor
    releases the new one.  A buffer that does not own its region still does
    not own anything after growth: growth leaves every block of the store
    as it was, and the destructor releases nothing, so neither the old
    region nor the new one is released. *)
Theorem grow_keeps_ownership n nocopy s f :
  well_formed s = true -> fill s = Ok f s ->
  0 <= n <= PTRDIFF_MAX -> (nocopy = false -> f <= n) ->
  exists s',
    grow n nocopy s = Ok tt s' /\
    own (this s') = own (this s) /\
    base (this s') = Ptr (length (mem s)) 0 /\
    allocated (mem s') (base (this s')) = true /\
    (own (this s) = true ->
       allocated (mem s') (base (this s)) = false /\
       exists s'', destroy s' = Ok tt s'' /\
                   allocated (mem s'') (base (this s')) = false) /\
    (own (this s) = false ->
       (forall j B, mem s !! j = Some B -> mem s' !! j = Some B) /\
       destroy s' = Ok tt s').
Proof.
  intros Hwf Hf [_ Hn] Hfit.
  pose proof (well_formed_shape s Hwf) as Hs.
  destruct (fill_shape s Hs) as (d & Hd & Hfill & Hr).
  rewrite Hfill in Hf. apply Ok_inj in Hf as [<- _].
  destruct (grow_shape n nocopy s d Hs Hd Hn Hfit)
    as (dm & h' & C & Hdm & Hgrow & Hlen & Hborrow & Hframe & Hown & _).
  eexists. split; [exact Hgrow|]. cbn [mem this base own].
  split; [reflexivity|]. split; [reflexivity|].
  split; [apply allocated_new_block; exact Hlen|].
  split.
  - intros Ho. split.
    + destruct (base (this s)) as [|k o] eqn:Hb; [reflexivity|].
      destruct (Hown Ho k o eq_refl) as (B & HB & HB').
      unfold allocated. rewrite (lookup_old_block _ _ _ _ HB'). reflexivity.
    + unfold destroy. cxx. rewrite Ho.
      rewrite <- Hlen.
      rewrite (delete_array_live (h' ++ [Block n C true]) _ (length h')
                 (Block n C true) (lookup_new_block _ _) eq_refl).
      eexists. split; [reflexivity|]. cbn [mem].
      rewrite insert_new_block. unfold allocated.
      rewrite lookup_new_block. reflexivity.
  - intros Ho. rewrite (Hborrow Ho). split.
    + intros j B HB. apply lookup_old_block. exact HB.
    + unfold destroy. cxx. rewrite Ho. reflexivity.
Qed.

Lemma grow_keeps_ownership_witness :
  well_formed borrowed = true /\ fill borrowed = Ok 3 borrowed /\
  0 <= 8 <= PTRDIFF_MAX /\
  exists s',
    grow 8 false borrowed = Ok tt s' /\
    own (this s') = own (this borrowed) /\
    base (this s') = Ptr (length (mem borrowed)) 0 /\
    allocated (mem s') (base (this s')) = true /\
    (own (this borrowed) = true ->
       allocated (mem s') (base (this borrowed)) = false /\
       exists s'', destroy s' = Ok tt s'' /\
                   allocated (mem s'') (base (this s')) = false) /\
    (own (this borrowed) = false ->
       (forall j B, mem borrowed !! j = Some B -> mem s' !! j = Some B) /\
       destroy s' = Ok tt s').
Proof.
  split; [reflexivity|]. split; [reflexivity|].
  split; [unfold PTRDIFF_MAX; lia|].
  apply (grow_keeps_ownership 8 false borrowed 3);
    [reflexivity | reflexivity | unfold PTRDIFF_MAX; lia | intros _; lia].
Defined.

(** C1 as the specification states it fails: a buffer constructed with
    ownership disabled and then grown (here by [ensure], to 12 bytes) does
    not own the new region, and its destructor does not release it. *)
Lemma grown_borrowed_buffer_is_no_owner :
  ~ (forall s1 s2 s3,
       construct 4 false [] = Ok tt s1 ->
       ensure 8 s1 = Ok tt s2 ->
       destroy s2 = Ok tt s3 ->
       base (this s2) <> base (this s1) ->
       own (this s2) = true /\ allocated (mem s3) (base (this s2)) = false).
Proof.
  intros H.
  eassert (E1 : construct 4 false [] = Ok tt _) by (vm_compute; reflexivity).
  lazymatch type of E1 with
  | _ = Ok _ ?s1 =>
      eassert (E2 : ensure 8 s1 = Ok tt _) by (vm_compute; reflexivity)
  end.
  lazymatch type of E2 with
  | _ = Ok _ ?s2 =>
      eassert (E3 : destroy s2 = Ok tt _) by (vm_compute; reflexivity)
  end.
  destruct (H _ _ _ E1 E2 E3) as [Hown _].
  - cbn [this base]. discriminate.
  - cbn [this own] in Hown. discriminate Hown.
Qed.

(** ** The 32-bit capacity *)

(** C9: [size] is a [uint32_t] and [grow] takes a [size_t]: every call of
    [grow] for at least 2^32 bytes that returns records the requested size
    modulo 2^32, less than the block it allocated.  After a large [ensure]
    or [reserve] the recorded capacity is below the bytes in use plus the
    bytes asked for, and below the allocation. *)
Theorem capacity_wraps_at_2_32 :
  (forall n nocopy s s',
      uint32_modulus <= n -> grow n nocopy s = Ok tt s' ->
      size (this s') = n mod 2 ^ 32 /\
      size (this s') < n /\
      exists B, base (this s') = Ptr (length (mem s)) 0 /\
                mem s' !! length (mem s) = Some B /\
                blen B = n /\ size (this s') < blen B) /\
  (exists s0 s1 B,
      construct 0 true [] = Ok tt s0 /\ fill s0 = Ok 0 s0 /\
      ensure 4294967296 s0 = Ok tt s1 /\
      size (this s1) = 2147483648 /\
      size (this s1) < 0 + 4294967296 /\
      base (this s1) = Ptr 0 0 /\ mem s1 !! 0%nat = Some B /\
      blen B = 6442450944) /\
  (exists s0 s1 B,
      construct 1 true [] = Ok tt s0 /\ fill s0 = Ok 0 s0 /\
      reserve 4294967296 false s0 = Ok tt s1 /\
      size (this s1) = 0 /\
      size (this s1) < 0 + 4294967296 /\
      base (this s1) = Ptr 1 0 /\ mem s1 !! 1%nat = Some B /\
      blen B = 4294967296).
Proof.
  split; [|split].
  - intros n nocopy s s' Hn H.
    apply grow_inv in H
      as (_ & Hsize & _ & Hbase & _ & _ & _ & (B & HB & Hlen) & _).
    pose proof (to_uint32_wraps n Hn) as Hlt.
    rewrite Hsize. split; [reflexivity|]. split; [exact Hlt|].
    exists B. rewrite Hlen. auto.
  - eexists _, _, _. split; [reflexivity|]. split; [reflexivity|].
    split; [vm_compute; reflexivity|]. cbn [this size base mem].
    repeat split.
  - eexists _, _, _. split; [reflexivity|]. split; [reflexivity|].
    split; [vm_compute; reflexivity|]. cbn [this size base mem].
    repeat split.
Qed.

Lemma capacity_wraps_at_2_32_witness :
  exists s',
    uint32_modulus <= 6442450944 /\
    grow 6442450944 false sample = Ok tt s' /\
    size (this s') = 6442450944 mod 2 ^ 32 /\
    size (this s') < 6442450944.
Proof.
  eassert (E : grow 6442450944 false sample = Ok tt _)
    by (vm_compute; reflexivity).
  eexists. split; [unfold uint32_modulus; lia|].
  split; [exact E|].
  destruct (proj1 capacity_wraps_at_2_32 6442450944 false sample _
              ltac:(unfold uint32_modulus; lia) E) as (H1 & H2 & _).
  split; [exact H1 | exact H2].
Defined.

(** ** Null data *)

(** C5: [add_unchecked] with a null data pointer returns a null pointer and
    leaves the store and the object as they were, whatever [len] is.  [add]
    with a null data pointer is [ensure(len)] followed by that: the null
    pointer is returned, but the buffer may have grown before, as it does
    on an empty buffer asked for 10 bytes. *)
Theorem add_null_data :
  (forall len s, add_unchecked Null len s = Ok Null s) /\
  (forall len s, add Null len s = (ensure len ;; ret Null) s) /\
  (exists s0 s1,
      construct 0 true [] = Ok tt s0 /\ add Null 10 s0 = Ok Null s1 /\
      size (this s0) = 0 /\ base (this s0) = Null /\
      size (this s1) = 15 /\ base (this s1) = Ptr 0 0 /\
      fill s1 = Ok 0 s1).
Proof.
  split; [|split].
  - intros len s. reflexivity.
  - intros len s. reflexivity.
  - eexists _, _. split; [vm_compute; reflexivity|].
    split; [vm_compute; reflexivity|].
    cbn [this size base]. repeat split.
Qed.

(** ** Detaching the region *)

(** C6: on every well-formed buffer, [release] returns the old [base],
    stores the used length [ptr - base], as [fill] gives it, when a place
    for it is given, and leaves the object without a region ([size] 0, the
    three pointers null).  The store is not touched, so the region stays
    allocated; and the destructor of the object, run afterwards, changes
    nothing either, whether [own] is set or not. *)
Theorem release_detaches want_len s :
  well_formed s = true ->
  exists f s',
    ptr_diff (ptr (this s)) (base (this s)) = Some f /\
    fill s = Ok f s /\
    release want_len s
    = Ok (base (this s), if want_len then Some f else None) s' /\
    this s' = {| base := Null; ptr := Null; mark := Null; size := 0;
                 own := own (this s) |} /\
    mem s' = mem s /\
    destroy s' = Ok tt s'.
Proof.
  intros Hwf.
  destruct (fill_shape s (well_formed_shape s Hwf)) as (d & Hd & Hfill & _).
  exists d. eexists. split; [exact Hd|]. split; [exact Hfill|].
  unfold release. cxx.
  destruct want_len.
  - rewrite (bind_assoc fill). rewrite (bind_ok _ _ _ _ _ Hfill). cxx.
    split; [reflexivity|]. cbn [mem this].
    split; [reflexivity|]. split; [reflexivity|].
    unfold destroy. cxx. destruct (own (this s)); reflexivity.
  - cxx. split; [reflexivity|]. cbn [mem this].
    split; [reflexivity|]. split; [reflexivity|].
    unfold destroy. cxx. destruct (own (this s)); reflexivity.
Qed.

Lemma release_detaches_witness :
  well_formed sample = true /\
  exists s',
    ptr_diff (ptr (this sample)) (base (this sample)) = Some 3 /\
    fill sample = Ok 3 sample /\
    release true sample = Ok (Ptr 2 0, Some 3) s' /\
    this s' = {| base := Null; ptr := Null; mark := Null; size := 0;
                 own := true |} /\
    mem s' = mem sample /\
    destroy s' = Ok tt s'.
Proof.
  split; [reflexivity|].
  destruct (release_detaches true sample eq_refl)
    as (f & s' & Hd & Hfill & Hrel & Hthis & Hmem & Hdes).
  assert (Hf : f = 3) by (vm_compute in Hd; injection Hd as <-; reflexivity).
  subst f. exists s'.
  split; [exact Hd|]. split; [exact Hfill|]. split; [exact Hrel|].
  split; [exact Hthis|]. split; [exact Hmem|]. exact Hdes.
Defined.

(** ** Rewinding *)

Lemma add_unchecked_frame data len s p s' :
  add_unchecked data len s = Ok p s' ->
  base (this s') = base (this s) /\ size (this s') = size (this s) /\
  mark (this s') = mark (this s) /\ own (this s') = own (this s) /\
  length (mem s') = length (mem s) /\
  (forall j, live <$> (mem s' !! j) = live <$> (mem s !! j)).
Proof.
  unfold add_unchecked. destruct (is_null data).
  { intros H. apply Ok_inj in H as [_ <-]. repeat split. }
  cxx. intros H.
  apply bind_inv in H as ([] & s1 & Hcopy & H).
  apply bind_inv in H as (q & s2 & Hq & H).
  apply lift_inv in Hq as [_ ->].
  cxx in H. apply Ok_inj in H as [_ <-]. cbn [mem this base mark size own].
  apply memcpy_inv in Hcopy as [Hthis Hmem]. rewrite Hthis.
  repeat split.
  - destruct Hmem as [->|(kd & od & D & C & _ & _ & _ & _ & _ & ->)];
      [reflexivity|apply length_insert].
  - intros j.
    destruct Hmem as [->|(kd & od & D & C & _ & HD & Hl & _ & _ & ->)];
      [reflexivity|].
    destruct (decide (kd = j)) as [->|Hne].
    + rewrite list_lookup_insert_eq by (eapply lookup_lt_Some, HD).
      rewrite HD. simpl. rewrite Hl. reflexivity.
    + rewrite list_lookup_insert_ne by exact Hne. reflexivity.
Qed.

(** C7: [clear] sets [ptr] back to [base]: the buffer is empty and nothing
    is in use, while [base], [size], [own] and the store are as before.
    Hence [ensure] of any length up to the capacity changes nothing and
    [add] of such a length is just [add_unchecked]: the region stays where
    it is, with its capacity, and no block is allocated or released. *)
Theorem clear_rewinds s :
  0 <= size (this s) < uint32_modulus ->
  exists s',
    clear s = Ok tt s' /\
    fill s' = Ok 0 s' /\ empty s' = Ok true s' /\
    base (this s') = base (this s) /\ size (this s') = size (this s) /\
    own (this s') = own (this s) /\ mem s' = mem s /\
    forall len, 0 <= len <= size (this s) ->
      ensure len s' = Ok tt s' /\
      forall data,
        add data len s' = add_unchecked data len s' /\
        forall p s'',
          add data len s' = Ok p s'' ->
          base (this s'') = base (this s) /\
          size (this s'') = size (this s) /\
          length (mem s'') = length (mem s) /\
          (forall j, live <$> (mem s'' !! j) = live <$> (mem s !! j)).
Proof.
  intros Hsize. destruct moduli as (M32 & M64 & _).
  eexists. split; [reflexivity|]. cbn [mem this base size own ptr].
  assert (Hfill : forall b h,
             fill (State h {| base := base b; ptr := base b; mark := mark b;
                              size := size b; own := own b |})
             = Ok 0 (State h {| base := base b; ptr := base b; mark := mark b;
                                size := size b; own := own b |})).
  { intros b h. apply (fill_diff _ 0). apply ptr_diff_self. }
  split; [apply Hfill|].
  split; [unfold empty; cxx; rewrite pointer_eqb_refl; reflexivity|].
  do 4 (split; [reflexivity|]).
  intros len Hlen.
  assert (Hensure :
    ensure len (State (mem s) {| base := base (this s); ptr := base (this s);
                                 mark := mark (this s); size := size (this s);
                                 own := own (this s) |})
    = Ok tt (State (mem s) {| base := base (this s); ptr := base (this s);
                              mark := mark (this s); size := size (this s);
                              own := own (this s) |})).
  { set (st := State (mem s) _).
    assert (Hrem : remaining st = Ok (to_size_t (size (this st) - 0)) st)
      by (apply remaining_diff, ptr_diff_self).
    unfold ensure. rewrite (bind_ok _ _ _ _ _ Hrem).
    subst st. cbn [this size]. rewrite to_size_t_small by lia.
    rewrite gtb_false by lia. reflexivity. }
  split; [exact Hensure|].
  intros data.
  assert (Hadd : forall st, ensure len st = Ok tt st ->
                            add data len st = add_unchecked data len st).
  { intros st Hst. unfold add. rewrite (bind_ok _ _ _ _ _ Hst). reflexivity. }
  split; [apply Hadd, Hensure|].
  intros p s'' H. rewrite (Hadd _ Hensure) in H.
  apply add_unchecked_frame in H. cbn [mem this base size] in H.
  destruct H as (H1 & H2 & _ & _ & H3 & H4). auto.
Qed.

Lemma clear_rewinds_witness :
  0 <= size (this sample) < uint32_modulus /\
  exists s',
    clear sample = Ok tt s' /\
    fill s' = Ok 0 s' /\ empty s' = Ok true s' /\
    base (this s') = base (this sample) /\ size (this s') = size (this sample) /\
    own (this s') = own (this sample) /\ mem s' = mem sample /\
    forall len, 0 <= len <= size (this sample) ->
      ensure len s' = Ok tt s' /\
      forall data,
        add data len s' = add_unchecked data len s' /\
        forall p s'',
          add data len s' = Ok p s'' ->
          base (this s'') = base (this sample) /\
          size (this s'') = size (this sample) /\
          length (mem s'') = length (mem sample) /\
          (forall j, live <$> (mem s'' !! j) = live <$> (mem sample !! j)).
Proof.
  split; [unfold uint32_modulus; simpl; lia|].
  apply (clear_rewinds sample). unfold uint32_modulus. simpl. lia.
Defined.

(** C10: [clear] does not touch [mark].  After three bytes were added, the
    bookmark set and the buffer cleared, the bookmark lies three bytes
    beyond the cursor, in the free part of a well-formed buffer. *)
Theorem clear_keeps_mark :
  (forall s, exists s',
      clear s = Ok tt s' /\
      mark (this s') = mark (this s) /\ ptr (this s') = base (this s)) /\
  (exists s0 s1 s2 s3 p,
      construct 0 true sources = Ok tt s0 /\
      add (Ptr 0 0) 3 s0 = Ok p s1 /\
      set_mark s1 = Ok tt s2 /\
      clear s2 = Ok tt s3 /\
      ptr_diff (mark (this s3)) (ptr (this s3)) = Some 3 /\
      fill s3 = Ok 0 s3 /\
      well_formed s3 = true).
Proof.
  split.
  - intros s. eexists. split; [reflexivity|]. split; reflexivity.
  - eexists _, _, _, _, _.
    split; [reflexivity|]. split; [vm_compute; reflexivity|].
    split; [reflexivity|]. split; [reflexivity|].
    cbn [this mark ptr]. repeat split.
Qed.

(** ** Requests of 4 GiB and more *)

(** C3 at [ensure(2^32)] on an empty buffer: the free space (0) is
    insufficient, [grow] is called for 6442450944 bytes, and the capacity
    recorded afterwards is 2147483648: neither [(0 + len) * 3 / 2] nor at
    least [0 + len], and [remaining] is below [len]. *)
Lemma ensure_4GiB_records_2GiB :
  exists s0 s1,
    construct 0 true [] = Ok tt s0 /\ well_formed s0 = true /\
    fill s0 = Ok 0 s0 /\ remaining s0 = Ok 0 s0 /\
    ensure 4294967296 s0 = Ok tt s1 /\
    size (this s1) = 2147483648 /\
    (0 + 4294967296) * 3 / 2 = 6442450944 /\
    size (this s1) < 0 + 4294967296 /\
    remaining s1 = Ok 2147483648 s1.
Proof.
  eexists _, _. split; [reflexivity|]. split; [reflexivity|].
  split; [reflexivity|]. split; [reflexivity|].
  split; [vm_compute; reflexivity|]. cbn [this size].
  repeat split.
Qed.

(** C8 at [ensure] and [reserve]: on a fresh buffer of capacity
    3221225472, [ensure(3221225473)] leaves the capacity 536870913; on a
    fresh buffer of capacity 1, [reserve(2^32)] leaves the capacity 0.  In
    both the buffer keeps a region. *)
Lemma ensure_and_reserve_can_lower_capacity :
  (exists s0 s1,
      construct 3221225472 true [] = Ok tt s0 /\ well_formed s0 = true /\
      ensure 3221225473 s0 = Ok tt s1 /\
      size (this s0) = 3221225472 /\ size (this s1) = 536870913 /\
      allocated (mem s1) (base (this s1)) = true) /\
  (exists s0 s1,
      construct 1 true [] = Ok tt s0 /\ well_formed s0 = true /\
      reserve 4294967296 false s0 = Ok tt s1 /\
      size (this s0) = 1 /\ size (this s1) = 0 /\
      allocated (mem s1) (base (this s1)) = true).
Proof.
  split.
  - eexists _, _. split; [reflexivity|]. split; [reflexivity|].
    split; [vm_compute; reflexivity|]. repeat split.
  - eexists _, _. split; [reflexivity|]. split; [reflexivity|].
    split; [vm_compute; reflexivity|]. repeat split.
Qed.

(** C2 at two appends of 4 GiB each to an empty buffer.  The first one
    allocates 6442450944 bytes and records the capacity 2147483648; the
    buffer then holds 4294967296 bytes, [remaining] wraps around to
    2^64 - 2^31, so the second [add] does not grow the buffer and copies
    4 GiB to offset 4294967296 of a block of 6442450944 bytes: it writes
    beyond the end of the allocation. *)
Lemma second_add_of_4GiB_overruns :
  exists s0 s1 p B,
    construct 0 true huge_source = Ok tt s0 /\
    add (Ptr 0 0) 4294967296 s0 = Ok p s1 /\
    fill s1 = Ok 4294967296 s1 /\
    size (this s1) = 2147483648 /\
    remaining s1 = Ok 18446744071562067968 s1 /\
    ensure 4294967296 s1 = Ok tt s1 /\
    ptr (this s1) = Ptr 1 4294967296 /\
    mem s1 !! 1%nat = Some B /\ blen B = 6442450944 /\
    add (Ptr 0 0) 4294967296 s1 = Stop Undefined.
Proof.
  eexists _, _, _, _. split; [reflexivity|].
  split; [vm_compute; reflexivity|].
  repeat split.
Qed.

(** ** Below 4 GiB *)

(** The three evaluations above have one cause, the conversion of the
    requested size to [uint32_t] at the end of [grow].  As long as the
    requested sizes stay below 2^32 the operations behave as documented;
    the rest of this file shows it. *)

Lemma ensure_keeps len s d :
  ptr_diff (ptr (this s)) (base (this s)) = Some d ->
  0 <= d <= size (this s) -> size (this s) < uint32_modulus ->
  len <= size (this s) - d ->
  ensure len s = Ok tt s.
Proof.
  intros Hd Hr Hs Hlen. destruct moduli as (M32 & M64 & _).
  unfold ensure. rewrite (bind_ok _ _ _ _ _ (remaining_diff s d Hd)).
  rewrite to_size_t_small by lia. rewrite gtb_false by lia. reflexivity.
Qed.

Lemma ensure_grows len s d :
  ptr_diff (ptr (this s)) (base (this s)) = Some d ->
  0 <= d <= size (this s) -> size (this s) < uint32_modulus ->
  size (this s) - d < len -> (d + len) * 3 / 2 <= PTRDIFF_MAX ->
  ensure len s = grow ((d + len) * 3 / 2) false s.
Proof.
  intros Hd Hr Hs Hlen Hn. destruct moduli as (M32 & M64 & Mmax).
  assert (Hlt : (d + len) * 3 < size_t_modulus).
  { assert (H2 := Z.mul_div_le ((d + len) * 3) 2 ltac:(lia)).
    assert (H3 := Z.mod_pos_bound ((d + len) * 3) 2 ltac:(lia)).
    assert (H4 := Z.div_mod ((d + len) * 3) 2 ltac:(lia)). lia. }
  unfold ensure. rewrite (bind_ok _ _ _ _ _ (remaining_diff s d Hd)).
  rewrite to_size_t_small by lia. rewrite gtb_true by lia.
  rewrite (bind_ok _ _ _ _ _ (fill_diff s d Hd)).
  rewrite (to_size_t_small d) by lia.
  rewrite (to_size_t_small (d + len)) by lia.
  rewrite to_size_t_small by lia. reflexivity.
Qed.

Lemma reserve_keeps len nocopy s d :
  ptr_diff (ptr (this s)) (base (this s)) = Some d ->
  0 <= d <= size (this s) -> size (this s) < uint32_modulus ->
  len <= size (this s) - d ->
  reserve len nocopy s = Ok tt s.
Proof.
  intros Hd Hr Hs Hlen. destruct moduli as (M32 & M64 & _).
  unfold reserve. rewrite (bind_ok _ _ _ _ _ (remaining_diff s d Hd)).
  rewrite to_size_t_small by lia. rewrite gtb_false by lia. reflexivity.
Qed.

Lemma reserve_grows len nocopy s d :
  ptr_diff (ptr (this s)) (base (this s)) = Some d ->
  0 <= d <= size (this s) -> size (this s) < uint32_modulus ->
  size (this s) - d < len -> d + len < size_t_modulus ->
  reserve len nocopy s = grow (d + len) nocopy s.
Proof.
  intros Hd Hr Hs Hlen Hn. destruct moduli as (M32 & M64 & Mmax).
  unfold reserve. rewrite (bind_ok _ _ _ _ _ (remaining_diff s d Hd)).
  rewrite to_size_t_small by lia. rewrite gtb_true by lia.
  rewrite (bind_ok _ _ _ _ _ (fill_diff s d Hd)).
  rewrite (to_size_t_small d) by lia.
  rewrite to_size_t_small by lia. reflexivity.
Qed.

Lemma within_capacity_inv s :
  within_capacity s = true ->
  exists d, ptr_diff (ptr (this s)) (base (this s)) = Some d /\
            d <= size (this s).
Proof.
  unfold within_capacity.
  destruct (ptr_diff (ptr (this s)) (base (this s))) as [d|]; [|discriminate].
  intros H. apply Z.leb_le in H. eauto.
Qed.

(** X3: [ensure] below 4 GiB: with enough free
    space nothing changes; otherwise the capacity becomes
    [(used + len) * 3 / 2], which is at least [used + len], and the used
    length stays. *)
Theorem ensure_below_4GiB len s d :
  well_formed s = true -> within_capacity s = true -> fill s = Ok d s ->
  0 <= len -> (d + len) * 3 / 2 < uint32_modulus ->
  remaining s = Ok (size (this s) - d) s /\
  (len <= size (this s) - d -> ensure len s = Ok tt s) /\
  (size (this s) - d < len ->
   exists s', ensure len s = Ok tt s' /\
              size (this s') = (d + len) * 3 / 2 /\
              d + len <= size (this s') /\
              fill s' = Ok d s' /\
              well_formed s' = true /\ within_capacity s' = true).
Proof.
  intros Hwf Hcap Hfill Hlen Hn.
  destruct moduli as (M32 & M64 & Mmax).
  pose proof (well_formed_shape s Hwf) as Hs.
  destruct (fill_shape s Hs) as (d' & Hd & Hfill' & Hr).
  rewrite Hfill' in Hfill. apply Ok_inj in Hfill as [-> _].
  destruct (within_capacity_inv s Hcap) as (d' & Hd' & Hle).
  rewrite Hd in Hd'. injection Hd' as <-.
  assert (Hsz : 0 <= size (this s) < uint32_modulus).
  { unfold well_formed in Hwf. apply andb_prop in Hwf as [Hwf _].
    apply andb_prop in Hwf as [H1 H2].
    apply Z.leb_le in H1. apply Z.ltb_lt in H2. lia. }
  split.
  { rewrite (remaining_diff s d Hd). rewrite to_size_t_small by lia.
    reflexivity. }
  split.
  { intros Hroom. apply (ensure_keeps len s d); try assumption; lia. }
  intros Hfull.
  rewrite (ensure_grows len s d) by (try assumption; lia).
  pose proof (three_halves (d + len) ltac:(lia)) as H32.
  destruct (grow_shape ((d + len) * 3 / 2) false s d Hs Hd ltac:(lia)
              ltac:(intros _; lia))
    as (dm & h' & C & Hdm & Hgrow & Hlen' & _).
  eexists. split; [exact Hgrow|]. cbn [this size].
  rewrite to_uint32_small by lia.
  split; [reflexivity|]. split; [exact H32|].
  split.
  { rewrite (fill_diff _ d) by (simpl; rewrite Nat.eqb_refl; f_equal; lia).
    rewrite to_size_t_small by lia. reflexivity. }
  split.
  - apply shape_well_formed.
    eapply (Allocated _ (length (mem s)) 0 d dm
              (Block ((d + len) * 3 / 2) C true));
      cbn [mem this base ptr mark size own blen live];
      try reflexivity; try lia.
    rewrite <- Hlen'. apply lookup_new_block.
  - unfold within_capacity. cbn [this base ptr size ptr_diff].
    rewrite Nat.eqb_refl. apply Z.leb_le. lia.
Qed.

Lemma ensure_below_4GiB_witness :
  well_formed sample = true /\ within_capacity sample = true /\
  fill sample = Ok 3 sample /\ 0 <= 8 /\ (3 + 8) * 3 / 2 < uint32_modulus /\
  remaining sample = Ok (size (this sample) - 3) sample /\
  (8 <= size (this sample) - 3 -> ensure 8 sample = Ok tt sample) /\
  (size (this sample) - 3 < 8 ->
   exists s', ensure 8 sample = Ok tt s' /\
              size (this s') = (3 + 8) * 3 / 2 /\
              3 + 8 <= size (this s') /\
              fill s' = Ok 3 s' /\
              well_formed s' = true /\ within_capacity s' = true).
Proof.
  do 3 (split; [reflexivity|]). split; [lia|].
  split; [vm_compute; reflexivity|].
  apply (ensure_below_4GiB 8 sample 3);
    [reflexivity | reflexivity | reflexivity | lia | vm_compute; reflexivity].
Defined.

(** ** Reading the used part *)

Lemma bytes_at_lookup h k o B n :
  h !! k = Some B ->
  bytes_at h (Ptr k o) n = map (fun i => cell (cells B) (o + Z.of_nat i)) (seq 0 n).
Proof. intros H. unfold bytes_at. rewrite H. reflexivity. Qed.

Lemma bytes_at_zero h p : bytes_at h p 0 = [].
Proof.
  destruct p as [|k o]; [reflexivity|]. unfold bytes_at.
  destruct (h !! k); reflexivity.
Qed.

(** Two ranges with the same cells read the same. *)
Lemma bytes_at_ext h1 h2 k1 k2 o1 o2 B1 B2 n :
  h1 !! k1 = Some B1 -> h2 !! k2 = Some B2 ->
  (forall i, 0 <= i < Z.of_nat n ->
             cell (cells B1) (o1 + i) = cell (cells B2) (o2 + i)) ->
  bytes_at h1 (Ptr k1 o1) n = bytes_at h2 (Ptr k2 o2) n.
Proof.
  intros H1 H2 Hcells.
  rewrite (bytes_at_lookup _ _ _ _ _ H1), (bytes_at_lookup _ _ _ _ _ H2).
  apply map_ext_in. intros i Hi. apply in_seq in Hi. apply Hcells. lia.
Qed.

Lemma bytes_at_split h k o B n m :
  h !! k = Some B ->
  bytes_at h (Ptr k o) (n + m)
  = bytes_at h (Ptr k o) n ++ bytes_at h (Ptr k (o + Z.of_nat n)) m.
Proof.
  intros H. rewrite !(bytes_at_lookup _ _ _ _ _ H).
  rewrite seq_app, map_app. f_equal. cbn [Nat.add].
  pose proof (fmap_add_seq n 0 m) as Hseq. rewrite Nat.add_0_r in Hseq.
  rewrite <- Hseq.
  change (Nat.add n <$> seq 0 m) with (map (Nat.add n) (seq 0 m)).
  rewrite map_map. apply map_ext. intros i. f_equal. lia.
Qed.

(** ** Copying into the free part *)

Lemma block_eta B : live B = true -> Block (blen B) (cells B) true = B.
Proof. destruct B as [n c l]. simpl. intros ->. reflexivity. Qed.

Lemma state_eta s : State (mem s) (this s) = s.
Proof. destruct s. reflexivity. Qed.

(** [memcpy] between two different allocated blocks, within their bounds. *)
Lemma memcpy_ok kd od ks os n s D Src :
  mem s !! kd = Some D -> mem s !! ks = Some Src ->
  live D = true -> live Src = true ->
  0 <= od -> od + n <= blen D -> 0 <= os -> os + n <= blen Src ->
  kd <> ks -> 0 <= n ->
  exists c',
    memcpy (Ptr kd od) (Ptr ks os) n s
    = Ok tt (State (<[kd := Block (blen D) c' true]> (mem s)) (this s)) /\
    forall i, cell c' i
              = if (od <=? i) && (i <? od + n)
                then cell (cells Src) (os + (i - od))
                else cell (cells D) i.
Proof.
  intros HD HS HlD HlS Hod Hdn Hos Hsn Hne Hn.
  unfold memcpy. destruct (n =? 0) eqn:E0.
  - apply Z.eqb_eq in E0. subst n. exists (cells D). split.
    + rewrite (block_eta D HlD), (list_insert_id _ _ _ HD), state_eta.
      reflexivity.
    + intros i.
      replace ((od <=? i) && (i <? od + 0)) with false; [reflexivity|].
      symmetry. apply andb_false_iff.
      destruct (Z.leb_spec od i); [right; apply Z.ltb_ge; lia | left; reflexivity].
  - rewrite HD, HS, HlD, HlS.
    replace (kd =? ks)%nat with false by (symmetry; apply Nat.eqb_neq; exact Hne).
    replace (0 <=? od) with true by (symmetry; apply Z.leb_le; lia).
    replace (od + n <=? blen D) with true by (symmetry; apply Z.leb_le; lia).
    replace (0 <=? os) with true by (symmetry; apply Z.leb_le; lia).
    replace (os + n <=? blen Src) with true by (symmetry; apply Z.leb_le; lia).
    cbn [andb negb].
    eexists. split; [reflexivity|]. intros i. reflexivity.
Qed.

Lemma readable_source_inv s data len :
  readable_source s (data, len) = true ->
  exists k o B,
    data = Ptr k o /\ mem s !! k = Some B /\ live B = true /\
    0 <= o /\ 0 <= len /\ o + len <= blen B /\
    forall bo, base (this s) <> Ptr k bo.
Proof.
  unfold readable_source. destruct data as [|k o]; [discriminate|].
  destruct (mem s !! k) as [B|] eqn:EB; [|discriminate].
  intros H.
  repeat match type of H with
         | _ && _ = true => apply andb_prop in H as [H ?]
         end.
  repeat match goal with
         | H : (_ <=? _) = true |- _ => apply Z.leb_le in H
         end.
  exists k, o, B. repeat split; try assumption.
  intros bo Hb.
  match goal with
  | Hn : negb _ = true |- _ =>
      rewrite Hb in Hn; cbn [region] in Hn;
      rewrite bool_decide_eq_true_2 in Hn by reflexivity; discriminate Hn
  end.
Qed.

(** [add_unchecked] when the free part has room for [len] bytes. *)
Lemma add_unchecked_room data len s d :
  shape s -> ptr_diff (ptr (this s)) (base (this s)) = Some d ->
  d + len <= size (this s) -> readable_source s (data, len) = true ->
  exists s1,
    add_unchecked data len s = Ok (ptr (this s)) s1 /\
    shape s1 /\
    ptr_diff (ptr (this s1)) (base (this s1)) = Some (d + len) /\
    base (this s1) = base (this s) /\ size (this s1) = size (this s) /\
    length (mem s1) = length (mem s) /\
    (forall j, (forall o, base (this s) <> Ptr j o) -> mem s1 !! j = mem s !! j) /\
    bytes_at (mem s1) (base (this s1)) (Z.to_nat (d + len))
    = bytes_at (mem s) (base (this s)) (Z.to_nat d)
      ++ bytes_at (mem s) data (Z.to_nat len).
Proof.
  intros Hs Hd Hroom Hsrc.
  destruct (readable_source_inv s data len Hsrc)
    as (ks & os & Src & -> & HS & HlS & Hos & Hlen & Hsn & Hother).
  unfold add_unchecked. cxx.
  destruct Hs as [Hb Hp Hm Hsz | k bo po mo B Hb Hp Hm HB Hl Hbo Hpo Hsz HL Ho Hsize].
  - rewrite Hb, Hp in Hd. simpl in Hd. injection Hd as <-.
    assert (len = 0) by lia. subst len.
    rewrite Hp. unfold memcpy. cxx. rewrite Hb.
    destruct s as [h [b p m sz o]]. cbn [mem this base ptr mark size own] in *.
    subst. eexists. split; [reflexivity|]. cbn [mem this base ptr mark size own].
    split; [apply Unallocated; reflexivity|].
    do 5 (split; [reflexivity|]).
    cbn [Z.add Z.to_nat]. rewrite !bytes_at_zero. reflexivity.
  - rewrite Hb, Hp in Hd. simpl in Hd. rewrite Nat.eqb_refl in Hd.
    injection Hd as <-. rewrite Hp.
    assert (Hne : k <> ks) by (intros ->; exact (Hother bo Hb)).
    destruct (memcpy_ok k po ks os len s B Src HB HS Hl HlS
                ltac:(lia) ltac:(lia) Hos Hsn Hne Hlen) as (c' & Hcopy & Hcells).
    rewrite (bind_ok _ _ _ _ _ Hcopy). cxx.
    eexists. split; [reflexivity|]. cbn [mem this base ptr mark size own].
    assert (Hk : (k < length (mem s))%nat) by (eapply lookup_lt_Some, HB).
    assert (HB' : <[k := Block (blen B) c' true]> (mem s) !! k
                  = Some (Block (blen B) c' true))
      by (apply list_lookup_insert_eq; exact Hk).
    split.
    { eapply (Allocated _ k bo (po + len) mo (Block (blen B) c' true));
        cbn [mem this base ptr mark size own blen live];
        try eassumption; try reflexivity; lia. }
    rewrite Hb. cbn [ptr_diff]. rewrite Nat.eqb_refl.
    split; [f_equal; lia|]. split; [reflexivity|]. split; [reflexivity|].
    split; [apply length_insert|].
    split.
    { intros j Hj. apply list_lookup_insert_ne. intros <-. exact (Hj bo eq_refl). }
    replace (Z.to_nat (po - bo + len))
      with (Z.to_nat (po - bo) + Z.to_nat len)%nat by lia.
    rewrite (bytes_at_split _ _ _ _ _ _ HB'). f_equal.
    + apply (bytes_at_ext _ _ _ _ _ _ _ _ _ HB' HB). cbn [cells].
      intros i Hi. rewrite Hcells.
      replace ((po <=? bo + i) && (bo + i <? po + len)) with false; [reflexivity|].
      symmetry. apply andb_false_iff. left. apply Z.leb_gt. lia.
    + apply (bytes_at_ext _ _ _ _ _ _ _ _ _ HB' HS). cbn [cells].
      intros i Hi. rewrite Hcells.
      replace ((po <=? bo + Z.of_nat (Z.to_nat (po - bo)) + i)
               && (bo + Z.of_nat (Z.to_nat (po - bo)) + i <? po + len))
        with true
        by (symmetry; apply andb_true_intro; split;
            [apply Z.leb_le|apply Z.ltb_lt]; lia).
      f_equal. lia.
Qed.

(** [ensure] below 4 GiB leaves a well-formed buffer with room for [len]
    more bytes, the same used bytes, and all other blocks as they were. *)
Lemma ensure_makes_room len s d :
  shape s -> ptr_diff (ptr (this s)) (base (this s)) = Some d ->
  d <= size (this s) -> 0 <= len -> (d + len) * 3 / 2 < uint32_modulus ->
  exists s1,
    ensure len s = Ok tt s1 /\
    shape s1 /\
    ptr_diff (ptr (this s1)) (base (this s1)) = Some d /\
    d + len <= size (this s1) /\
    (length (mem s) <= length (mem s1))%nat /\
    (forall j, (j < length (mem s))%nat ->
               (forall o, base (this s) <> Ptr j o) ->
               mem s1 !! j = mem s !! j /\
               forall o, base (this s1) <> Ptr j o) /\
    bytes_at (mem s1) (base (this s1)) (Z.to_nat d)
    = bytes_at (mem s) (base (this s)) (Z.to_nat d).
Proof.
  intros Hs Hd Hle Hlen Hn. destruct moduli as (M32 & M64 & Mmax).
  pose proof (used_range s d Hs Hd) as Hr.
  assert (Hsz : 0 <= size (this s) < uint32_modulus).
  { apply shape_well_formed in Hs. unfold well_formed in Hs.
    apply andb_prop in Hs as [Hs _]. apply andb_prop in Hs as [H1 H2].
    apply Z.leb_le in H1. apply Z.ltb_lt in H2. lia. }
  destruct (Z_le_gt_dec len (size (this s) - d)) as [Hroom|Hfull].
  - exists s. rewrite (ensure_keeps len s d) by (try assumption; lia).
    split; [reflexivity|]. split; [exact Hs|]. split; [exact Hd|].
    split; [lia|]. split; [lia|]. split; [|reflexivity].
    intros j _ Hj. split; [reflexivity|exact Hj].
  - rewrite (ensure_grows len s d) by (try assumption; lia).
    pose proof (three_halves (d + len) ltac:(lia)) as H32.
    destruct (grow_shape ((d + len) * 3 / 2) false s d Hs Hd ltac:(lia)
                ltac:(intros _; lia))
      as (dm & h' & C & Hdm & Hgrow & Hlen' & _ & Hframe & _ & Hcopy).
    eexists. split; [exact Hgrow|]. cbn [mem this base ptr size].
    assert (HN : (h' ++ [Block ((d + len) * 3 / 2) C true]) !! length (mem s)
                 = Some (Block ((d + len) * 3 / 2) C true))
      by (rewrite <- Hlen'; apply lookup_new_block).
    split.
    { eapply (Allocated _ (length (mem s)) 0 d dm
                (Block ((d + len) * 3 / 2) C true));
        cbn [mem this base ptr mark size own blen live];
        try reflexivity; try exact HN; try lia.
      all: rewrite to_uint32_small by lia; lia. }
    cbn [ptr_diff]. rewrite Nat.eqb_refl.
    split; [f_equal; lia|].
    split; [rewrite to_uint32_small by lia; exact H32|].
    split; [rewrite length_app; lia|].
    split.
    { intros j Hj Hbase. split.
      - rewrite lookup_app_l by lia. apply Hframe. exact Hbase.
      - intros o [= Hj' _]. lia. }
    destruct (base (this s)) as [|k bo] eqn:Hb.
    + destruct Hs as [_ Hp _ _ | ? ? ? ? ? Hb' _ _ _ _ _ _ _ _ _ _];
        [|rewrite Hb in Hb'; discriminate].
      rewrite Hp in Hd. simpl in Hd. injection Hd as <-.
      cbn [Z.to_nat]. rewrite !bytes_at_zero. reflexivity.
    + destruct Hs as [Hb' _ _ _ | k' bo' po mo B Hb' _ _ HB _ _ _ _ _ _ _];
        [rewrite Hb in Hb'; discriminate|].
      rewrite Hb in Hb'. injection Hb' as <- <-.
      apply (bytes_at_ext _ _ _ _ _ _ _ _ _ HN HB). cbn [cells].
      intros i Hi. apply (Hcopy eq_refl k bo B eq_refl HB). lia.
Qed.

(** One checked [add] below 4 GiB. *)
Lemma add_step data len s d :
  shape s -> ptr_diff (ptr (this s)) (base (this s)) = Some d ->
  d <= size (this s) -> readable_source s (data, len) = true ->
  (d + len) * 3 / 2 < uint32_modulus ->
  exists p s1,
    add data len s = Ok p s1 /\
    shape s1 /\
    ptr_diff (ptr (this s1)) (base (this s1)) = Some (d + len) /\
    d + len <= size (this s1) /\
    (length (mem s) <= length (mem s1))%nat /\
    (forall j, (j < length (mem s))%nat ->
               (forall o, base (this s) <> Ptr j o) ->
               mem s1 !! j = mem s !! j /\
               forall o, base (this s1) <> Ptr j o) /\
    bytes_at (mem s1) (base (this s1)) (Z.to_nat (d + len))
    = bytes_at (mem s) (base (this s)) (Z.to_nat d)
      ++ bytes_at (mem s) data (Z.to_nat len).
Proof.
  intros Hs Hd Hle Hsrc Hn.
  destruct (readable_source_inv s data len Hsrc)
    as (ks & os & Src & -> & HS & HlS & Hos & Hlen & Hsn & Hother).
  destruct (ensure_makes_room len s d Hs Hd Hle Hlen Hn)
    as (s1 & Hens & Hs1 & Hd1 & Hroom & Hlen1 & Hframe1 & Hbytes1).
  assert (Hks : (ks < length (mem s))%nat) by (eapply lookup_lt_Some, HS).
  destruct (Hframe1 ks Hks Hother) as [HS1 Hother1].
  rewrite HS in HS1.
  assert (Hsrc1 : readable_source s1 (Ptr ks os, len) = true).
  { unfold readable_source. rewrite HS1, HlS.
    replace (0 <=? os) with true by (symmetry; apply Z.leb_le; lia).
    replace (0 <=? len) with true by (symmetry; apply Z.leb_le; lia).
    replace (os + len <=? blen Src) with true by (symmetry; apply Z.leb_le; lia).
    cbn [andb]. rewrite bool_decide_eq_false_2; [reflexivity|].
    destruct (base (this s1)) as [|k o] eqn:Hb1; [discriminate|].
    cbn [region]. intros [= ->]. exact (Hother1 o eq_refl). }
  destruct (add_unchecked_room (Ptr ks os) len s1 d Hs1 Hd1 Hroom Hsrc1)
    as (s2 & Hadd & Hs2 & Hd2 & Hbase2 & Hsize2 & Hlen2 & Hframe2 & Hbytes2).
  exists (ptr (this s1)), s2. split.
  { unfold add. rewrite (bind_ok _ _ _ _ _ Hens). exact Hadd. }
  split; [exact Hs2|]. split; [exact Hd2|].
  split; [rewrite Hsize2; exact Hroom|].
  split; [lia|].
  split.
  { intros j Hj Hbase. destruct (Hframe1 j Hj Hbase) as [Hj1 Hbase1].
    split.
    - rewrite (Hframe2 j Hbase1). exact Hj1.
    - rewrite Hbase2. exact Hbase1. }
  rewrite Hbytes2, Hbytes1. f_equal.
  apply (bytes_at_ext _ _ _ _ _ _ _ _ _ HS1 HS). reflexivity.
Qed.

(** A source stays readable, with the same bytes, as long as its block is
    left alone and does not become the region of the buffer. *)
Lemma readable_source_frame s s1 src :
  readable_source s src = true ->
  (forall j, (j < length (mem s))%nat ->
             (forall o, base (this s) <> Ptr j o) ->
             mem s1 !! j = mem s !! j /\
             forall o, base (this s1) <> Ptr j o) ->
  readable_source s1 src = true /\
  forall n, bytes_at (mem s1) (fst src) n = bytes_at (mem s) (fst src) n.
Proof.
  destruct src as [data len]. intros Hsrc Hframe.
  destruct (readable_source_inv s data len Hsrc)
    as (ks & os & Src & -> & HS & HlS & Hos & Hlen & Hsn & Hother).
  assert (Hks : (ks < length (mem s))%nat) by (eapply lookup_lt_Some, HS).
  destruct (Hframe ks Hks Hother) as [HS1 Hother1]. rewrite HS in HS1.
  split.
  - unfold readable_source. rewrite HS1, HlS.
    replace (0 <=? os) with true by (symmetry; apply Z.leb_le; lia).
    replace (0 <=? len) with true by (symmetry; apply Z.leb_le; lia).
    replace (os + len <=? blen Src) with true by (symmetry; apply Z.leb_le; lia).
    cbn [andb]. rewrite bool_decide_eq_false_2; [reflexivity|].
    destruct (base (this s1)) as [|k o] eqn:Hb1; [discriminate|].
    cbn [region]. intros [= ->]. exact (Hother1 o eq_refl).
  - intros n. cbn [fst].
    apply (bytes_at_ext _ _ _ _ _ _ _ _ _ HS1 HS). reflexivity.
Qed.

Lemma total_nonneg s l : forallb (readable_source s) l = true -> 0 <= total l.
Proof.
  induction l as [|[data len] l IH]; simpl; [lia|].
  intros H. apply andb_prop in H as [Hsrc Hl].
  destruct (readable_source_inv s data len Hsrc) as (? & ? & ? & _ & _ & _ & _ & Hlen & _).
  specialize (IH Hl). lia.
Qed.

Lemma add_all_shape l :
  forall s d,
    shape s -> ptr_diff (ptr (this s)) (base (this s)) = Some d ->
    d <= size (this s) -> forallb (readable_source s) l = true ->
    (d + total l) * 3 / 2 < uint32_modulus ->
    exists s',
      add_all l s = Ok tt s' /\
      shape s' /\
      ptr_diff (ptr (this s')) (base (this s')) = Some (d + total l) /\
      d + total l <= size (this s') /\
      bytes_at (mem s') (base (this s')) (Z.to_nat (d + total l))
      = bytes_at (mem s) (base (this s)) (Z.to_nat d)
        ++ concat (map (fun src => bytes_at (mem s) (fst src) (Z.to_nat (snd src))) l).
Proof.
  induction l as [|[data len] l IH]; intros s d Hs Hd Hle Hsrc Hn.
  - exists s. cbn [add_all total fold_right map concat].
    rewrite Z.add_0_r, app_nil_r. repeat split; assumption.
  - cbn [forallb] in Hsrc. apply andb_prop in Hsrc as [Hsrc Hrest].
    cbn [total fold_right snd] in Hn |- *. fold (total l) in Hn |- *.
    pose proof (total_nonneg s l Hrest) as Htot.
    pose proof (used_range s d Hs Hd) as Hr.
    destruct (readable_source_inv s data len Hsrc)
      as (? & ? & ? & _ & _ & _ & _ & Hlen & _).
    assert (Hn1 : (d + len) * 3 / 2 < uint32_modulus).
    { eapply Z.le_lt_trans; [|exact Hn].
      apply Z.div_le_mono; lia. }
    destruct (add_step data len s d Hs Hd Hle Hsrc Hn1)
      as (p & s1 & Hadd & Hs1 & Hd1 & Hle1 & _ & Hframe & Hbytes).
    assert (Hrest1 : forallb (readable_source s1) l = true).
    { apply forallb_forall. intros src Hin.
      apply (readable_source_frame s s1 src); [|exact Hframe].
      rewrite forallb_forall in Hrest. apply Hrest, Hin. }
    destruct (IH s1 (d + len) Hs1 Hd1 Hle1 Hrest1
                ltac:(replace (d + len + total l) with (d + (len + total l)) by lia;
                      exact Hn))
      as (s' & Hall & Hs' & Hd' & Hle' & Hbytes').
    exists s'. cbn [add_all]. rewrite (bind_ok _ _ _ _ _ Hadd).
    split; [exact Hall|]. split; [exact Hs'|].
    replace (d + (len + total l)) with (d + len + total l) by lia.
    split; [exact Hd'|]. split; [exact Hle'|].
    rewrite Hbytes', Hbytes. cbn [map concat fst snd].
    rewrite <- app_assoc. f_equal. f_equal. f_equal.
    apply map_ext_in. intros src Hin.
    rewrite forallb_forall in Hrest.
    apply (readable_source_frame s s1 src (Hrest src Hin) Hframe).
Qed.

(** X7: appends below 4 GiB: on a well-formed
    buffer holding [d] bytes, a sequence of checked appends from readable
    sources outside the buffer, with [(d + total) * 3 / 2 < 2^32], returns;
    afterwards the used length is [d] plus the sum of the lengths, and the
    used part reads as the old used part followed by the appended arrays in
    call order. *)
Theorem add_all_below_4GiB l s d :
  well_formed s = true -> within_capacity s = true -> fill s = Ok d s ->
  forallb (readable_source s) l = true ->
  (d + total l) * 3 / 2 < uint32_modulus ->
  exists s',
    add_all l s = Ok tt s' /\
    fill s' = Ok (d + total l) s' /\
    bytes_at (mem s') (base (this s')) (Z.to_nat (d + total l))
    = bytes_at (mem s) (base (this s)) (Z.to_nat d)
      ++ concat (map (fun src => bytes_at (mem s) (fst src) (Z.to_nat (snd src))) l)
    /\ well_formed s' = true /\ within_capacity s' = true.
Proof.
  intros Hwf Hcap Hfill Hsrc Hn.
  pose proof (well_formed_shape s Hwf) as Hs.
  destruct (fill_shape s Hs) as (d' & Hd & Hfill' & Hr).
  rewrite Hfill' in Hfill. apply Ok_inj in Hfill as [-> _].
  destruct (within_capacity_inv s Hcap) as (d' & Hd' & Hle).
  rewrite Hd in Hd'. injection Hd' as <-.
  destruct (add_all_shape l s d Hs Hd Hle Hsrc Hn)
    as (s' & Hall & Hs' & Hd' & Hle' & Hbytes).
  exists s'. split; [exact Hall|].
  destruct (fill_shape s' Hs') as (d2 & Hd2 & Hfill2 & _).
  rewrite Hd' in Hd2. injection Hd2 as <-.
  split; [exact Hfill2|]. split; [exact Hbytes|].
  split; [apply shape_well_formed, Hs'|].
  unfold within_capacity. rewrite Hd'. apply Z.leb_le. exact Hle'.
Qed.

Lemma add_all_below_4GiB_witness :
  well_formed sample = true /\ within_capacity sample = true /\
  fill sample = Ok 3 sample /\
  forallb (readable_source sample) [(Ptr 1 0, 2); (Ptr 0 1, 1)] = true /\
  (3 + total [(Ptr 1 0, 2); (Ptr 0 1, 1)]) * 3 / 2 < uint32_modulus /\
  exists s',
    add_all [(Ptr 1 0, 2); (Ptr 0 1, 1)] sample = Ok tt s' /\
    fill s' = Ok (3 + total [(Ptr 1 0, 2); (Ptr 0 1, 1)]) s' /\
    bytes_at (mem s') (base (this s'))
             (Z.to_nat (3 + total [(Ptr 1 0, 2); (Ptr 0 1, 1)]))
    = bytes_at (mem sample) (base (this sample)) (Z.to_nat 3)
      ++ concat (map (fun src => bytes_at (mem sample) (fst src) (Z.to_nat (snd src)))
                     [(Ptr 1 0, 2); (Ptr 0 1, 1)])
    /\ well_formed s' = true /\ within_capacity s' = true.
Proof.
  do 4 (split; [reflexivity|]). split; [vm_compute; reflexivity|].
  apply (add_all_below_4GiB [(Ptr 1 0, 2); (Ptr 0 1, 1)] sample 3);
    [reflexivity | reflexivity | reflexivity | reflexivity
     | vm_compute; reflexivity].
Defined.

Lemma add_all_below_4GiB_example :
  exists s0 s',
    construct 0 true sources = Ok tt s0 /\
    add_all [(Ptr 0 0, 3); (Ptr 1 0, 2); (Ptr 0 1, 2)] s0 = Ok tt s' /\
    fill s' = Ok 7 s' /\
    bytes_at (mem s') (base (this s')) 7
    = map Some [x61; x62; x63; x64; x65; x62; x63].
Proof.
  eassert (E0 : construct 0 true sources = Ok tt _) by (vm_compute; reflexivity).
  eexists _, _. split; [exact E0|].
  split; [vm_compute; reflexivity|].
  split; vm_compute; reflexivity.
Qed.

(** ** The capacity below 4 GiB *)

Lemma grow_size n nocopy s s' :
  grow n nocopy s = Ok tt s' -> 0 <= n < uint32_modulus ->
  size (this s') = n.
Proof.
  intros H Hn. apply grow_inv in H as (_ & Hsize & _).
  rewrite Hsize. apply to_uint32_small. exact Hn.
Qed.

Lemma ensure_capacity len s d s' :
  ptr_diff (ptr (this s)) (base (this s)) = Some d ->
  0 <= d <= size (this s) -> size (this s) < uint32_modulus ->
  0 <= len -> (d + len) * 3 / 2 < uint32_modulus ->
  ensure len s = Ok tt s' -> size (this s) <= size (this s').
Proof.
  intros Hd Hr Hs Hlen Hn H. destruct moduli as (M32 & M64 & Mmax).
  pose proof (three_halves (d + len) ltac:(lia)) as H32.
  destruct (Z_le_gt_dec len (size (this s) - d)) as [Hroom|Hfull].
  - rewrite (ensure_keeps len s d) in H by assumption.
    apply Ok_inj in H as [_ <-]. lia.
  - rewrite (ensure_grows len s d) in H by (try assumption; lia).
    rewrite (grow_size _ _ _ _ H) by lia. lia.
Qed.

Lemma reserve_capacity len nocopy s d s' :
  ptr_diff (ptr (this s)) (base (this s)) = Some d ->
  0 <= d <= size (this s) -> size (this s) < uint32_modulus ->
  0 <= len -> d + len < uint32_modulus ->
  reserve len nocopy s = Ok tt s' -> size (this s) <= size (this s').
Proof.
  intros Hd Hr Hs Hlen Hn H. destruct moduli as (M32 & M64 & Mmax).
  destruct (Z_le_gt_dec len (size (this s) - d)) as [Hroom|Hfull].
  - rewrite (reserve_keeps len nocopy s d) in H by assumption.
    apply Ok_inj in H as [_ <-]. lia.
  - rewrite (reserve_grows len nocopy s d) in H by (try assumption; lia).
    rewrite (grow_size _ _ _ _ H) by lia. lia.
Qed.

(** X10: the capacity below 4 GiB: on a buffer
    whose used part lies within its capacity, none of [ensure], [reserve],
    [add], [add_unchecked], [set], [clear] and [set_mark] lowers [size], as
    long as [(used + len) * 3 / 2] stays below 2^32; [free] and [release]
    set it to zero. *)
Theorem capacity_below_4GiB s d len data nocopy :
  ptr_diff (ptr (this s)) (base (this s)) = Some d ->
  0 <= d <= size (this s) -> size (this s) < uint32_modulus ->
  0 <= len -> (d + len) * 3 / 2 < uint32_modulus ->
  (forall s', ensure len s = Ok tt s' -> size (this s) <= size (this s')) /\
  (forall s', reserve len nocopy s = Ok tt s' -> size (this s) <= size (this s')) /\
  (forall p s', add data len s = Ok p s' -> size (this s) <= size (this s')) /\
  (forall p s', add_unchecked data len s = Ok p s' -> size (this s') = size (this s)) /\
  (forall s', set data len s = Ok tt s' -> size (this s) <= size (this s')) /\
  (forall s', clear s = Ok tt s' -> size (this s') = size (this s)) /\
  (forall s', set_mark s = Ok tt s' -> size (this s') = size (this s)) /\
  (forall s', free s = Ok tt s' -> size (this s') = 0) /\
  (forall w r s', release w s = Ok r s' -> size (this s') = 0).
Proof.
  intros Hd Hr Hs Hlen Hn. destruct moduli as (M32 & M64 & Mmax).
  pose proof (three_halves (d + len) ltac:(lia)) as H32.
  split; [intros s'; apply (ensure_capacity len s d); assumption|].
  split; [intros s'; apply (reserve_capacity len nocopy s d); (assumption || lia)|].
  split.
  { intros p s' H. unfold add in H.
    apply bind_inv in H as ([] & s1 & Hens & Hadd).
    apply (ensure_capacity len s d) in Hens; try assumption.
    apply add_unchecked_frame in Hadd as (_ & Hsize & _). lia. }
  split.
  { intros p s' H. apply add_unchecked_frame in H as (_ & Hsize & _).
    exact Hsize. }
  split.
  { intros s' H. unfold set in H.
    apply bind_inv in H as ([] & s1 & Hclear & H).
    apply bind_inv in H as ([] & s2 & Hres & H).
    apply bind_inv in H as (p & s3 & Hadd & H).
    apply Ok_inj in H as [_ <-].
    unfold clear in Hclear. cxx in Hclear. apply Ok_inj in Hclear as [_ <-].
    apply (reserve_capacity len false _ 0) in Hres;
      cbn [this base ptr size] in *; try lia.
    - apply add_unchecked_frame in Hadd as (_ & Hsize & _). lia.
    - apply ptr_diff_self. }
  split; [intros s' H; apply Ok_inj in H as [_ <-]; reflexivity|].
  split; [intros s' H; apply Ok_inj in H as [_ <-]; reflexivity|].
  split.
  { intros s' H. unfold free in H. cxx in H.
    apply bind_inv in H as ([] & s1 & _ & H). cxx in H.
    apply Ok_inj in H as [_ <-]. reflexivity. }
  intros w r s' H. unfold release in H. cxx in H.
  apply bind_inv in H as (lenp & s1 & _ & H). cxx in H.
  apply Ok_inj in H as [_ <-]. reflexivity.
Qed.

Lemma capacity_below_4GiB_witness :
  ptr_diff (ptr (this sample)) (base (this sample)) = Some 3 /\
  0 <= 3 <= size (this sample) /\ size (this sample) < uint32_modulus /\
  0 <= 8 /\ (3 + 8) * 3 / 2 < uint32_modulus /\
  forall s', ensure 8 sample = Ok tt s' -> size (this sample) <= size (this s').
Proof.
  split; [reflexivity|]. split; [vm_compute; split; discriminate|].
  split; [vm_compute; reflexivity|]. split; [lia|].
  split; [vm_compute; reflexivity|].
  apply (capacity_below_4GiB sample 3 8 Null false);
    [reflexivity | vm_compute; split; discriminate | vm_compute; reflexivity
     | lia | vm_compute; reflexivity].
Defined.

(** ** Construction and the queries *)

Lemma shape_size_range s : shape s -> 0 <= size (this s) < uint32_modulus.
Proof.
  intros Hs. apply shape_well_formed in Hs. unfold well_formed in Hs.
  apply andb_prop in Hs as [Hs _]. apply andb_prop in Hs as [H1 H2].
  apply Z.leb_le in H1. apply Z.ltb_lt in H2. lia.
Qed.

(** The constructor on an unbounded free store. *)
Lemma construct_run initial_size own_buffer h :
  exists s,
    construct initial_size own_buffer h = Ok tt s /\
    well_formed s = true /\ within_capacity s = true /\
    size (this s) = initial_size mod 2 ^ 32 /\
    own (this s) = own_buffer /\
    fill s = Ok 0 s /\ remaining s = Ok (size (this s)) s /\
    empty s = Ok true s /\
    (size (this s) = 0 -> mem s = h /\ base (this s) = Null) /\
    (size (this s) <> 0 ->
       mem s = h ++ [Block (size (this s)) Indeterminate true] /\
       base (this s) = Ptr (length h) 0).
Proof.
  destruct moduli as (M32 & M64 & Mmax).
  pose proof (to_uint32_range initial_size) as Hr.
  unfold construct. cbn [size].
  destruct (to_uint32 initial_size =? 0) eqn:E0; cbn [negb].
  - apply Z.eqb_eq in E0. cxx. rewrite E0.
    eexists. split; [reflexivity|]. cbn [mem this base ptr mark size own].
    split; [reflexivity|]. split; [reflexivity|].
    split; [symmetry; exact E0|]. do 4 (split; [reflexivity|]).
    split; [intros _; split; reflexivity|]. intros H. contradiction.
  - apply Z.eqb_neq in E0. unfold new_array. cxx.
    rewrite (proj2 (Z.leb_le _ _)) by lia. cxx.
    set (n := to_uint32 initial_size) in *.
    eexists. split; [reflexivity|]. cbn [mem this base ptr mark size own].
    split.
    { apply shape_well_formed.
      eapply (Allocated _ (length h) 0 0 0 (Block n Indeterminate true));
        cbn [mem this base ptr mark size own blen live];
        try reflexivity; try lia.
      apply lookup_new_block. }
    split.
    { unfold within_capacity. cbn [this base ptr size ptr_diff].
      rewrite Nat.eqb_refl. apply Z.leb_le. lia. }
    split; [reflexivity|]. split; [reflexivity|].
    split; [apply (fill_diff _ 0), ptr_diff_self|].
    split.
    { rewrite (remaining_diff _ 0) by apply ptr_diff_self.
      cbn [this size]. rewrite Z.sub_0_r, to_size_t_small by lia. reflexivity. }
    split; [unfold empty; cxx; rewrite pointer_eqb_refl; reflexivity|].
    split; [intros H; contradiction|]. intros _. split; reflexivity.
Qed.

(** X1: whenever the constructor returns, that is, whenever [new] has
    served its request, the buffer it leaves is well-formed and empty, its
    capacity is [initial_size] modulo 2^32 and all of it is free.  With
    capacity zero nothing was allocated and the pointers are null; otherwise
    one block of exactly that many bytes was appended to the store and the
    rest of the store is untouched, whatever [own] is. *)
Theorem construct_well_formed initial_size own_buffer h s :
  construct initial_size own_buffer h = Ok tt s ->
  well_formed s = true /\ within_capacity s = true /\
  size (this s) = initial_size mod 2 ^ 32 /\
  own (this s) = own_buffer /\
  fill s = Ok 0 s /\ remaining s = Ok (size (this s)) s /\
  empty s = Ok true s /\
  (size (this s) = 0 -> mem s = h /\ base (this s) = Null) /\
  (size (this s) <> 0 ->
     mem s = h ++ [Block (size (this s)) Indeterminate true] /\
     base (this s) = Ptr (length h) 0).
Proof.
  intros H.
  destruct (construct_run initial_size own_buffer h) as (s1 & H1 & Hrest).
  rewrite H1 in H. apply Ok_inj in H as [_ <-]. exact Hrest.
Qed.

Lemma construct_well_formed_witness :
  exists s,
    construct 4294967301 false sources = Ok tt s /\
    well_formed s = true /\ within_capacity s = true /\
    size (this s) = 4294967301 mod 2 ^ 32 /\
    own (this s) = false /\
    fill s = Ok 0 s /\ remaining s = Ok (size (this s)) s /\
    empty s = Ok true s /\
    (size (this s) = 0 -> mem s = sources /\ base (this s) = Null) /\
    (size (this s) <> 0 ->
       mem s = sources ++ [Block (size (this s)) Indeterminate true] /\
       base (this s) = Ptr (length sources) 0).
Proof.
  eassert (E : construct 4294967301 false sources = Ok tt _)
    by (vm_compute; reflexivity).
  eexists. split; [exact E|].
  exact (construct_well_formed 4294967301 false sources _ E).
Defined.

(** X2: on a well-formed buffer whose used part lies within its capacity
    the three queries return and agree: [fill() + remaining()] is the
    capacity, neither is negative, and [empty()] is true exactly when
    [fill()] is zero. *)
Theorem queries_agree s :
  well_formed s = true -> within_capacity s = true ->
  exists f r e,
    fill s = Ok f s /\ remaining s = Ok r s /\ empty s = Ok e s /\
    f + r = size (this s) /\ 0 <= f /\ 0 <= r /\
    (e = true <-> f = 0).
Proof.
  intros Hwf Hcap. destruct moduli as (M32 & M64 & Mmax).
  pose proof (well_formed_shape s Hwf) as Hs.
  destruct (fill_shape s Hs) as (d & Hd & Hfill & Hr).
  destruct (within_capacity_inv s Hcap) as (d' & Hd' & Hle).
  rewrite Hd in Hd'. injection Hd' as <-.
  pose proof (shape_size_range s Hs) as Hsz.
  exists d, (size (this s) - d), (pointer_eqb (ptr (this s)) (base (this s))).
  split; [exact Hfill|].
  split.
  { rewrite (remaining_diff s d Hd), to_size_t_small by lia. reflexivity. }
  split; [reflexivity|]. split; [lia|]. split; [lia|]. split; [lia|].
  destruct Hs as [Hb Hp _ _ | k bo po mo B Hb Hp _ _ _ _ _ _ _ _ _];
    rewrite Hb, Hp in Hd |- *; simpl in Hd |- *.
  - injection Hd as <-. split; reflexivity.
  - rewrite Nat.eqb_refl in Hd |- *. injection Hd as <-. simpl.
    rewrite Z.eqb_eq. lia.
Qed.

Lemma queries_agree_witness :
  well_formed sample = true /\ within_capacity sample = true /\
  exists f r e,
    fill sample = Ok f sample /\ remaining sample = Ok r sample /\
    empty sample = Ok e sample /\
    f + r = size (this sample) /\ 0 <= f /\ 0 <= r /\
    (e = true <-> f = 0).
Proof.
  split; [reflexivity|]. split; [reflexivity|].
  apply (queries_agree sample); reflexivity.
Defined.

(** ** Giving the region back *)

Lemma unallocated_well_formed h o :
  well_formed (State h {| base := Null; ptr := Null; mark := Null;
                          size := 0; own := o |}) = true.
Proof. reflexivity. Qed.

(** X12: [free] on a well-formed buffer returns and leaves the object
    without a region, ready to be used again.  An owning buffer has released
    its region and no other block; a buffer that does not own its region has
    released nothing.  A second [free] and the destructor then change
    nothing: the region is not released twice. *)
Theorem free_releases s :
  well_formed s = true ->
  exists s',
    free s = Ok tt s' /\
    this s' = {| base := Null; ptr := Null; mark := Null; size := 0;
                 own := own (this s) |} /\
    well_formed s' = true /\
    (own (this s) = true ->
       allocated (mem s') (base (this s)) = false /\
       forall j, region (base (this s)) <> Some j -> mem s' !! j = mem s !! j) /\
    (own (this s) = false -> mem s' = mem s) /\
    free s' = Ok tt s' /\ destroy s' = Ok tt s'.
Proof.
  intros Hwf. pose proof (well_formed_shape s Hwf) as Hs.
  assert (Hdel : exists h',
             (if own (this s) then delete_array (base (this s)) else ret tt) s
             = Ok tt (State h' (this s)) /\
             (own (this s) = true ->
                allocated h' (base (this s)) = false /\
                forall j, region (base (this s)) <> Some j -> h' !! j = mem s !! j) /\
             (own (this s) = false -> h' = mem s)).
  { destruct (own (this s)) eqn:Ho.
    - destruct Hs as [Hb _ _ _ | k bo po mo B Hb _ _ HB Hl _ _ _ _ Hbo _].
      + rewrite Hb. exists (mem s). cbn [delete_array]. rewrite state_eta.
        split; [reflexivity|]. split; [|discriminate].
        intros _. split; reflexivity.
      + rewrite Hb, (Hbo Ho). destruct s as [h b]. cbn [mem this] in *.
        rewrite (delete_array_live h b k B HB Hl).
        eexists. split; [reflexivity|]. split; [|discriminate].
        intros _. split.
        * unfold allocated.
          rewrite list_lookup_insert_eq by (eapply lookup_lt_Some, HB).
          reflexivity.
        * intros j Hj. apply list_lookup_insert_ne. intros ->.
          apply Hj. reflexivity.
    - exists (mem s). cbn [ret]. rewrite state_eta.
      split; [reflexivity|]. split; [discriminate|]. reflexivity. }
  destruct Hdel as (h' & Hdel & Hown & Hborrow).
  unfold free. cxx. rewrite (bind_ok _ _ _ _ _ Hdel). cxx.
  eexists. split; [reflexivity|]. cbn [mem this base own].
  split; [reflexivity|]. split; [apply unallocated_well_formed|].
  split; [exact Hown|]. split; [exact Hborrow|].
  split.
  - unfold free. cxx. destruct (own (this s)); reflexivity.
  - unfold destroy. cxx. destruct (own (this s)); reflexivity.
Qed.

Lemma free_releases_witness :
  well_formed sample = true /\
  exists s',
    free sample = Ok tt s' /\
    this s' = {| base := Null; ptr := Null; mark := Null; size := 0;
                 own := own (this sample) |} /\
    well_formed s' = true /\
    (own (this sample) = true ->
       allocated (mem s') (base (this sample)) = false /\
       forall j, region (base (this sample)) <> Some j ->
                 mem s' !! j = mem sample !! j) /\
    (own (this sample) = false -> mem s' = mem sample) /\
    free s' = Ok tt s' /\ destroy s' = Ok tt s'.
Proof.
  split; [reflexivity|]. apply (free_releases sample). reflexivity.
Defined.

(** X13: the destructor of a well-formed buffer returns.  If the buffer
    owns its region, that block and no other is released; if it does not,
    the store is left as it was. *)
Theorem destroy_releases s :
  well_formed s = true ->
  exists s',
    destroy s = Ok tt s' /\ this s' = this s /\
    length (mem s') = length (mem s) /\
    (own (this s) = true ->
       allocated (mem s') (base (this s)) = false /\
       forall j, region (base (this s)) <> Some j -> mem s' !! j = mem s !! j) /\
    (own (this s) = false -> mem s' = mem s).
Proof.
  intros Hwf. pose proof (well_formed_shape s Hwf) as Hs.
  unfold destroy. cxx. destruct (own (this s)) eqn:Ho.
  - destruct Hs as [Hb _ _ _ | k bo po mo B Hb _ _ HB Hl _ _ _ _ Hbo _].
    + rewrite Hb. exists s. cbn [delete_array].
      split; [reflexivity|]. split; [reflexivity|]. split; [reflexivity|].
      split; [|discriminate]. intros _. split; reflexivity.
    + rewrite Hb, (Hbo Ho). destruct s as [h b]. cbn [mem this] in *.
      rewrite (delete_array_live h b k B HB Hl).
      eexists. split; [reflexivity|]. cbn [mem this].
      split; [reflexivity|]. split; [apply length_insert|].
      split; [|discriminate]. intros _. split.
      * unfold allocated.
        rewrite list_lookup_insert_eq by (eapply lookup_lt_Some, HB).
        reflexivity.
      * intros j Hj. apply list_lookup_insert_ne. intros ->.
        apply Hj. reflexivity.
  - exists s. cbn [ret].
    split; [reflexivity|]. split; [reflexivity|]. split; [reflexivity|].
    split; [discriminate|]. reflexivity.
Qed.

Lemma destroy_releases_witness :
  well_formed sample = true /\
  exists s',
    destroy sample = Ok tt s' /\ this s' = this sample /\
    length (mem s') = length (mem sample) /\
    (own (this sample) = true ->
       allocated (mem s') (base (this sample)) = false /\
       forall j, region (base (this sample)) <> Some j ->
                 mem s' !! j = mem sample !! j) /\
    (own (this sample) = false -> mem s' = mem sample).
Proof.
  split; [reflexivity|]. apply (destroy_releases sample). reflexivity.
Defined.

(** ** [ensure] and [reserve] as the callers see them *)

Lemma mark_diff_shape s :
  shape s -> exists m, ptr_diff (mark (this s)) (base (this s)) = Some m.
Proof.
  intros [Hb _ Hm _ | k bo po mo B Hb _ Hm _ _ _ _ _ _ _ _];
    rewrite Hb, Hm; simpl; [|rewrite Nat.eqb_refl]; eauto.
Qed.

(** X4: what [ensure(len)] guarantees below 4 GiB.  On a well-formed
    buffer it returns; afterwards at least [len] bytes are free, the used
    length, the used bytes and the offset of the bookmark are what they
    were, and the buffer is well-formed again. *)
Theorem ensure_guarantees_room len s d m :
  well_formed s = true -> within_capacity s = true -> fill s = Ok d s ->
  ptr_diff (mark (this s)) (base (this s)) = Some m ->
  0 <= len -> (d + len) * 3 / 2 < uint32_modulus ->
  exists s' r,
    ensure len s = Ok tt s' /\
    remaining s' = Ok r s' /\ len <= r /\
    fill s' = Ok d s' /\
    bytes_at (mem s') (base (this s')) (Z.to_nat d)
    = bytes_at (mem s) (base (this s)) (Z.to_nat d) /\
    ptr_diff (mark (this s')) (base (this s')) = Some m /\
    well_formed s' = true /\ within_capacity s' = true.
Proof.
  intros Hwf Hcap Hfill Hm Hlen Hn. destruct moduli as (M32 & M64 & Mmax).
  pose proof (well_formed_shape s Hwf) as Hs.
  destruct (fill_shape s Hs) as (d' & Hd & Hfill' & Hr).
  rewrite Hfill' in Hfill. apply Ok_inj in Hfill as [-> _].
  destruct (within_capacity_inv s Hcap) as (d' & Hd' & Hle).
  rewrite Hd in Hd'. injection Hd' as <-.
  destruct (ensure_makes_room len s d Hs Hd Hle Hlen Hn)
    as (s1 & Hens & Hs1 & Hd1 & Hroom & _ & _ & Hbytes).
  pose proof (shape_size_range s1 Hs1) as Hsz1.
  exists s1, (size (this s1) - d). split; [exact Hens|].
  split.
  { rewrite (remaining_diff s1 d Hd1), to_size_t_small by lia. reflexivity. }
  split; [lia|].
  split.
  { rewrite (fill_diff s1 d Hd1), to_size_t_small by lia. reflexivity. }
  split; [exact Hbytes|].
  split.
  { unfold ensure in Hens.
    apply bind_inv in Hens as (r & s0 & Hrem & Hens).
    rewrite (remaining_diff s d Hd) in Hrem. apply Ok_inj in Hrem as [<- <-].
    destruct (len >? to_size_t (size (this s) - d)).
    - apply bind_inv in Hens as (f & s0 & Hf & Hgrow).
      rewrite (fill_diff s d Hd) in Hf. apply Ok_inj in Hf as [<- <-].
      apply grow_inv in Hgrow
        as (_ & _ & _ & Hbase & _ & (dm & Hdm & Hmark) & _).
      rewrite Hm in Hdm. injection Hdm as <-.
      rewrite Hbase, Hmark. cbn [ptr_diff]. rewrite Nat.eqb_refl.
      f_equal. lia.
    - apply Ok_inj in Hens as [_ <-]. exact Hm. }
  split; [apply shape_well_formed, Hs1|].
  unfold within_capacity. rewrite Hd1. apply Z.leb_le. lia.
Qed.

Lemma ensure_guarantees_room_witness :
  well_formed sample = true /\ within_capacity sample = true /\
  fill sample = Ok 3 sample /\
  ptr_diff (mark (this sample)) (base (this sample)) = Some 2 /\
  0 <= 8 /\ (3 + 8) * 3 / 2 < uint32_modulus /\
  exists s' r,
    ensure 8 sample = Ok tt s' /\
    remaining s' = Ok r s' /\ 8 <= r /\
    fill s' = Ok 3 s' /\
    bytes_at (mem s') (base (this s')) (Z.to_nat 3)
    = bytes_at (mem sample) (base (this sample)) (Z.to_nat 3) /\
    ptr_diff (mark (this s')) (base (this s')) = Some 2 /\
    well_formed s' = true /\ within_capacity s' = true.
Proof.
  do 4 (split; [reflexivity|]). split; [lia|].
  split; [vm_compute; reflexivity|].
  apply (ensure_guarantees_room 8 sample 3 2);
    [reflexivity | reflexivity | reflexivity | reflexivity | lia
     | vm_compute; reflexivity].
Defined.

(** [grow] without copying: the new block is all indeterminate. *)
Lemma grow_shape_nocopy n s d :
  shape s -> ptr_diff (ptr (this s)) (base (this s)) = Some d ->
  n <= PTRDIFF_MAX ->
  exists dm h',
    ptr_diff (mark (this s)) (base (this s)) = Some dm /\
    grow n true s =
    Ok tt (State (h' ++ [Block n Indeterminate true])
                 {| base := Ptr (length (mem s)) 0;
                    ptr := Ptr (length (mem s)) d;
                    mark := Ptr (length (mem s)) dm;
                    size := to_uint32 n;
                    own := own (this s) |}) /\
    length h' = length (mem s).
Proof.
  intros Hs Hd Hn.
  destruct Hs as [Hb Hp Hm Hsz | k bo po mo B Hb Hp Hm HB Hl Hbo Hpo Hsz HL Ho Hs].
  - rewrite Hb, Hp in Hd. simpl in Hd. injection Hd as <-.
    exists 0, (mem s). rewrite (grow_unallocated n true s Hb Hp Hm Hn).
    rewrite Hb, Hm. simpl ptr_diff. repeat split.
  - rewrite Hb, Hp in Hd. simpl in Hd. rewrite Nat.eqb_refl in Hd.
    injection Hd as <-.
    exists (mo - bo), (if own (this s) then <[k := kill B]> (mem s) else mem s).
    rewrite (grow_allocated n true s k bo po mo B)
      by (try assumption; discriminate).
    rewrite Hb, Hm. simpl ptr_diff. rewrite Nat.eqb_refl.
    split; [reflexivity|]. split; [reflexivity|].
    destruct (own (this s)); [apply length_insert|reflexivity].
Qed.

Lemma bytes_at_indeterminate h k o n len :
  h !! k = Some (Block len Indeterminate true) ->
  bytes_at h (Ptr k o) n = replicate n None.
Proof.
  intros H. rewrite (bytes_at_lookup _ _ _ _ _ H). cbn [cells cell].
  generalize 0%nat. induction n as [|n IH]; intros a; [reflexivity|].
  cbn [seq map replicate]. f_equal. apply IH.
Qed.

(** [reserve] below 4 GiB leaves a well-formed buffer with room for [len]
    more bytes; the capacity is the old one, or exactly [d + len]. *)
Lemma reserve_makes_room len nocopy s d :
  shape s -> ptr_diff (ptr (this s)) (base (this s)) = Some d ->
  d <= size (this s) -> 0 <= len -> d + len < uint32_modulus ->
  exists s1,
    reserve len nocopy s = Ok tt s1 /\
    shape s1 /\
    ptr_diff (ptr (this s1)) (base (this s1)) = Some d /\
    size (this s1) = Z.max (size (this s)) (d + len) /\
    (length (mem s) <= length (mem s1))%nat /\
    (forall j, (j < length (mem s))%nat ->
               (forall o, base (this s) <> Ptr j o) ->
               mem s1 !! j = mem s !! j /\
               forall o, base (this s1) <> Ptr j o) /\
    (nocopy = false \/ len <= size (this s) - d ->
     bytes_at (mem s1) (base (this s1)) (Z.to_nat d)
     = bytes_at (mem s) (base (this s)) (Z.to_nat d)) /\
    (nocopy = true -> size (this s) - d < len ->
     forall n, bytes_at (mem s1) (base (this s1)) n = replicate n None).
Proof.
  intros Hs Hd Hle Hlen Hn. destruct moduli as (M32 & M64 & Mmax).
  pose proof (used_range s d Hs Hd) as Hr.
  pose proof (shape_size_range s Hs) as Hsz.
  destruct (Z_le_gt_dec len (size (this s) - d)) as [Hroom|Hfull].
  - exists s. rewrite (reserve_keeps len nocopy s d) by (try assumption; lia).
    split; [reflexivity|]. split; [exact Hs|]. split; [exact Hd|].
    split; [lia|]. split; [lia|].
    split; [intros j _ Hj; split; [reflexivity|exact Hj]|].
    split; [reflexivity|]. intros _ H. lia.
  - rewrite (reserve_grows len nocopy s d) by (try assumption; lia).
    destruct (grow_shape (d + len) nocopy s d Hs Hd ltac:(lia)
                ltac:(intros _; lia))
      as (dm & h' & C & Hdm & Hgrow & Hlen' & _ & Hframe & _ & Hcopy).
    eexists. split; [exact Hgrow|]. cbn [mem this base ptr size].
    assert (HN : (h' ++ [Block (d + len) C true]) !! length (mem s)
                 = Some (Block (d + len) C true))
      by (rewrite <- Hlen'; apply lookup_new_block).
    split.
    { eapply (Allocated _ (length (mem s)) 0 d dm (Block (d + len) C true));
        cbn [mem this base ptr mark size own blen live];
        try reflexivity; try exact HN; try lia.
      all: rewrite to_uint32_small by lia; lia. }
    cbn [ptr_diff]. rewrite Nat.eqb_refl.
    split; [f_equal; lia|].
    split; [rewrite to_uint32_small by lia; lia|].
    split; [rewrite length_app; lia|].
    split.
    { intros j Hj Hbase. split.
      - rewrite lookup_app_l by lia. apply Hframe. exact Hbase.
      - intros o [= Hj' _]. lia. }
    split.
    { intros [->|H]; [|lia].
      destruct (base (this s)) as [|k bo] eqn:Hb.
      + destruct Hs as [_ Hp _ _ | ? ? ? ? ? Hb' _ _ _ _ _ _ _ _ _ _];
          [|rewrite Hb in Hb'; discriminate].
        rewrite Hp in Hd. simpl in Hd. injection Hd as <-.
        cbn [Z.to_nat]. rewrite !bytes_at_zero. reflexivity.
      + destruct Hs as [Hb' _ _ _ | k' bo' po mo B Hb' _ _ HB _ _ _ _ _ _ _];
          [rewrite Hb in Hb'; discriminate|].
        rewrite Hb in Hb'. injection Hb' as <- <-.
        apply (bytes_at_ext _ _ _ _ _ _ _ _ _ HN HB). cbn [cells].
        intros i Hi. apply (Hcopy eq_refl k bo B eq_refl HB). lia. }
    intros -> _ n.
    destruct (grow_shape_nocopy (d + len) s d Hs Hd ltac:(lia))
      as (dm' & h'' & _ & Hgrow' & Hlen'').
    rewrite Hgrow' in Hgrow. apply Ok_inj in Hgrow as [_ Hst].
    injection Hst as Hmem _. apply app_inj_tail in Hmem as [_ HC].
    injection HC as <-.
    apply (bytes_at_indeterminate _ _ _ _ (d + len)). exact HN.
Qed.

(** X5: [reserve] below 4 GiB.  With enough free space nothing changes.
    Otherwise the capacity becomes exactly [used + len], so that exactly
    [len] bytes are free; the used length stays in both modes.  Without
    [nocopy] the used bytes stay too; with [nocopy] the used part of the new
    region is indeterminate. *)
Theorem reserve_exact_below_4GiB len nocopy s d :
  well_formed s = true -> within_capacity s = true -> fill s = Ok d s ->
  0 <= len -> d + len < uint32_modulus ->
  (len <= size (this s) - d -> reserve len nocopy s = Ok tt s) /\
  (size (this s) - d < len ->
   exists s',
     reserve len nocopy s = Ok tt s' /\
     size (this s') = d + len /\
     fill s' = Ok d s' /\ remaining s' = Ok len s' /\
     well_formed s' = true /\ within_capacity s' = true /\
     (nocopy = false ->
      bytes_at (mem s') (base (this s')) (Z.to_nat d)
      = bytes_at (mem s) (base (this s)) (Z.to_nat d)) /\
     (nocopy = true ->
      bytes_at (mem s') (base (this s')) (Z.to_nat d)
      = replicate (Z.to_nat d) None)).
Proof.
  intros Hwf Hcap Hfill Hlen Hn. destruct moduli as (M32 & M64 & Mmax).
  pose proof (well_formed_shape s Hwf) as Hs.
  destruct (fill_shape s Hs) as (d' & Hd & Hfill' & Hr).
  rewrite Hfill' in Hfill. apply Ok_inj in Hfill as [-> _].
  destruct (within_capacity_inv s Hcap) as (d' & Hd' & Hle).
  rewrite Hd in Hd'. injection Hd' as <-.
  pose proof (shape_size_range s Hs) as Hsz.
  split.
  { intros Hroom. apply (reserve_keeps len nocopy s d); try assumption; lia. }
  intros Hfull.
  destruct (reserve_makes_room len nocopy s d Hs Hd Hle Hlen Hn)
    as (s1 & Hres & Hs1 & Hd1 & Hsize & _ & _ & Hbytes & Hfresh).
  exists s1. split; [exact Hres|].
  assert (Hsize' : size (this s1) = d + len) by lia.
  split; [exact Hsize'|].
  split.
  { rewrite (fill_diff s1 d Hd1), to_size_t_small by lia. reflexivity. }
  split.
  { rewrite (remaining_diff s1 d Hd1), Hsize', to_size_t_small by lia.
    f_equal. lia. }
  split; [apply shape_well_formed, Hs1|].
  split.
  { unfold within_capacity. rewrite Hd1. apply Z.leb_le. lia. }
  split.
  - intros ->. apply Hbytes. left. reflexivity.
  - intros ->. apply Hfresh; [reflexivity|exact Hfull].
Qed.

Lemma reserve_exact_below_4GiB_witness :
  well_formed sample = true /\ within_capacity sample = true /\
  fill sample = Ok 3 sample /\ 0 <= 8 /\ 3 + 8 < uint32_modulus /\
  (8 <= size (this sample) - 3 -> reserve 8 true sample = Ok tt sample) /\
  (size (this sample) - 3 < 8 ->
   exists s',
     reserve 8 true sample = Ok tt s' /\
     size (this s') = 3 + 8 /\
     fill s' = Ok 3 s' /\ remaining s' = Ok 8 s' /\
     well_formed s' = true /\ within_capacity s' = true /\
     (true = false ->
      bytes_at (mem s') (base (this s')) (Z.to_nat 3)
      = bytes_at (mem sample) (base (this sample)) (Z.to_nat 3)) /\
     (true = true ->
      bytes_at (mem s') (base (this s')) (Z.to_nat 3)
      = replicate (Z.to_nat 3) None)).
Proof.
  do 3 (split; [reflexivity|]). split; [lia|].
  split; [vm_compute; reflexivity|].
  apply (reserve_exact_below_4GiB 8 true sample 3);
    [reflexivity | reflexivity | reflexivity | lia | vm_compute; reflexivity].
Defined.

(** ** Cursor and bookmark across the calls *)

Lemma ensure_inv len s s' :
  ensure len s = Ok tt s' ->
  s' = s \/ exists n, grow n false s = Ok tt s'.
Proof.
  unfold ensure. intros H.
  apply bind_inv in H as (r & s0 & Hrem & H).
  unfold remaining in Hrem. cxx in Hrem.
  apply bind_inv in Hrem as (d & s1 & Hd & Hrem).
  apply lift_inv in Hd as [_ ->]. cxx in Hrem.
  apply Ok_inj in Hrem as [_ <-].
  destruct (len >? r).
  - apply bind_inv in H as (f & s1 & Hf & H).
    unfold fill in Hf. cxx in Hf.
    apply bind_inv in Hf as (d' & s2 & Hd' & Hf).
    apply lift_inv in Hd' as [_ ->]. cxx in Hf.
    apply Ok_inj in Hf as [_ <-]. right. eauto.
  - apply Ok_inj in H as [_ <-]. left. reflexivity.
Qed.

Lemma reserve_inv len nocopy s s' :
  reserve len nocopy s = Ok tt s' ->
  s' = s \/ exists n, grow n nocopy s = Ok tt s'.
Proof.
  unfold reserve. intros H.
  apply bind_inv in H as (r & s0 & Hrem & H).
  unfold remaining in Hrem. cxx in Hrem.
  apply bind_inv in Hrem as (d & s1 & Hd & Hrem).
  apply lift_inv in Hd as [_ ->]. cxx in Hrem.
  apply Ok_inj in Hrem as [_ <-].
  destruct (len >? r).
  - apply bind_inv in H as (f & s1 & Hf & H).
    unfold fill in Hf. cxx in Hf.
    apply bind_inv in Hf as (d' & s2 & Hd' & Hf).
    apply lift_inv in Hd' as [_ ->]. cxx in Hf.
    apply Ok_inj in Hf as [_ <-]. right. eauto.
  - apply Ok_inj in H as [_ <-]. left. reflexivity.
Qed.

Lemma grow_keeps_offsets n nocopy s s' :
  grow n nocopy s = Ok tt s' ->
  ptr_diff (ptr (this s')) (base (this s')) = ptr_diff (ptr (this s)) (base (this s))
  /\ ptr_diff (mark (this s')) (base (this s'))
     = ptr_diff (mark (this s)) (base (this s)).
Proof.
  intros H. apply grow_inv in H
    as (_ & _ & _ & Hbase & (d & Hd & Hptr) & (dm & Hdm & Hmark) & _).
  rewrite Hbase, Hptr, Hmark, Hd, Hdm. cbn [ptr_diff].
  rewrite Nat.eqb_refl. split; f_equal; lia.
Qed.

(** X11: the bookmark keeps its offset from [base] across every call that
    returns, except [set_mark], [free] and [release], in every state and
    for every size, with or without reallocation.  [ensure] and [reserve]
    keep the offset of the cursor as well. *)
Theorem bookmark_keeps_offset c s s' :
  keeps_mark c = true -> invoke c s = Ok tt s' ->
  ptr_diff (mark (this s')) (base (this s'))
  = ptr_diff (mark (this s)) (base (this s)) /\
  match c with
  | Ensure _ | Reserve _ _ =>
      ptr_diff (ptr (this s')) (base (this s'))
      = ptr_diff (ptr (this s)) (base (this s))
  | _ => True
  end.
Proof.
  assert (Hunchecked : forall data len st p st',
            add_unchecked data len st = Ok p st' ->
            ptr_diff (mark (this st')) (base (this st'))
            = ptr_diff (mark (this st)) (base (this st))).
  { intros data len st p st' H.
    apply add_unchecked_frame in H as (Hb & _ & Hm & _). rewrite Hb, Hm.
    reflexivity. }
  destruct c as [len|len nocopy|data len|data len|data len| | | |w];
    cbn [keeps_mark invoke]; intros Hk H; try discriminate Hk.
  - apply ensure_inv in H as [->|[n H]]; [split; reflexivity|].
    apply grow_keeps_offsets in H as [H1 H2]. split; assumption.
  - apply reserve_inv in H as [->|[n H]]; [split; reflexivity|].
    apply grow_keeps_offsets in H as [H1 H2]. split; assumption.
  - apply bind_inv in H as (p & s1 & H & Hret).
    apply Ok_inj in Hret as [_ <-]. split; [|exact I].
    eapply Hunchecked, H.
  - apply bind_inv in H as (p & s1 & H & Hret).
    apply Ok_inj in Hret as [_ <-]. split; [|exact I].
    unfold add in H. apply bind_inv in H as ([] & s0 & Hens & H).
    rewrite (Hunchecked _ _ _ _ _ H).
    apply ensure_inv in Hens as [->|[n Hens]]; [reflexivity|].
    apply grow_keeps_offsets in Hens as [_ H2]. exact H2.
  - split; [|exact I]. unfold set in H.
    apply bind_inv in H as ([] & s0 & Hclear & H).
    apply bind_inv in H as ([] & s1 & Hres & H).
    apply bind_inv in H as (p & s2 & Hadd & H).
    apply Ok_inj in H as [_ <-].
    rewrite (Hunchecked _ _ _ _ _ Hadd).
    unfold clear in Hclear. cxx in Hclear. apply Ok_inj in Hclear as [_ <-].
    apply reserve_inv in Hres as [->|[n Hres]]; [reflexivity|].
    apply grow_keeps_offsets in Hres as [_ H2]. exact H2.
  - split; [|exact I]. unfold clear in H. cxx in H.
    apply Ok_inj in H as [_ <-]. reflexivity.
Qed.

Lemma bookmark_keeps_offset_witness :
  exists s',
    keeps_mark (Add (Ptr 1 0) 2) = true /\
    invoke (Add (Ptr 1 0) 2) sample = Ok tt s' /\
    base (this s') <> base (this sample) /\
    ptr_diff (mark (this s')) (base (this s'))
    = ptr_diff (mark (this sample)) (base (this sample)).
Proof.
  eassert (E : invoke (Add (Ptr 1 0) 2) sample = Ok tt _)
    by (vm_compute; reflexivity).
  eexists. split; [reflexivity|]. split; [exact E|].
  split; [cbn [this base]; discriminate|].
  exact (proj1 (bookmark_keeps_offset (Add (Ptr 1 0) 2) sample _ eq_refl E)).
Defined.

(** ** Where the data goes *)

Lemma bytes_at_length h k o B n :
  h !! k = Some B -> length (bytes_at h (Ptr k o) n) = n.
Proof.
  intros H. rewrite (bytes_at_lookup _ _ _ _ _ H).
  rewrite length_map, length_seq. reflexivity.
Qed.

Lemma used_diff s d :
  ptr_diff (ptr (this s)) (base (this s)) = Some d -> used s = d.
Proof. intros H. unfold used. rewrite H. reflexivity. Qed.

(** X6: a checked [add] below 4 GiB returns the place the data was written
    to: the pointer returned is [base] (after a possible reallocation) plus
    the length used before the call, the [len] bytes there are the bytes of
    [data], and the cursor is left [len] bytes behind it. *)
Theorem add_returns_written_place data len s d :
  well_formed s = true -> within_capacity s = true -> fill s = Ok d s ->
  readable_source s (data, len) = true ->
  (d + len) * 3 / 2 < uint32_modulus ->
  exists p s',
    add data len s = Ok p s' /\
    ptr_add (base (this s')) d = Some p /\
    ptr_add p len = Some (ptr (this s')) /\
    bytes_at (mem s') p (Z.to_nat len) = bytes_at (mem s) data (Z.to_nat len).
Proof.
  intros Hwf Hcap Hfill Hsrc Hn.
  pose proof (well_formed_shape s Hwf) as Hs.
  destruct (fill_shape s Hs) as (d' & Hd & Hfill' & Hr).
  rewrite Hfill' in Hfill. apply Ok_inj in Hfill as [-> _].
  destruct (within_capacity_inv s Hcap) as (d' & Hd' & Hle).
  rewrite Hd in Hd'. injection Hd' as <-.
  destruct (readable_source_inv s data len Hsrc)
    as (ks & os & Src & -> & HS & HlS & Hos & Hlen & Hsn & Hother).
  destruct (ensure_makes_room len s d Hs Hd Hle Hlen Hn)
    as (s1 & Hens & Hs1 & Hd1 & Hroom & _ & Hframe1 & _).
  destruct (readable_source_frame s s1 (Ptr ks os, len) Hsrc Hframe1)
    as [Hsrc1 Hsame].
  destruct (add_unchecked_room (Ptr ks os) len s1 d Hs1 Hd1 Hroom Hsrc1)
    as (s2 & Hadd & Hs2 & Hd2 & Hbase2 & _ & _ & _ & Hbytes2).
  exists (ptr (this s1)), s2. split.
  { unfold add. rewrite (bind_ok _ _ _ _ _ Hens). exact Hadd. }
  rewrite Hbase2 in Hd2 |- *.
  destruct Hs1 as [Hb Hp _ Hsz | k bo po mo B Hb Hp _ HB _ Hbo _ _ _ _ _].
  - rewrite Hb, Hp in Hd1. simpl in Hd1. injection Hd1 as <-.
    assert (len = 0) by lia. subst len.
    rewrite Hb in Hd2 |- *. rewrite Hp.
    destruct (ptr (this s2)) as [|k2 o2]; [|discriminate Hd2].
    split; [reflexivity|]. split; [reflexivity|].
    cbn [Z.to_nat]. rewrite !bytes_at_zero. reflexivity.
  - rewrite Hb, Hp in Hd1. simpl in Hd1. rewrite Nat.eqb_refl in Hd1.
    injection Hd1 as <-.
    rewrite Hb in Hd2, Hbytes2 |- *. rewrite Hp.
    destruct (ptr (this s2)) as [|k2 o2]; [discriminate Hd2|].
    simpl in Hd2. destruct (k2 =? k)%nat eqn:Ek; [|discriminate Hd2].
    apply Nat.eqb_eq in Ek. subst k2. injection Hd2 as Hd2.
    split; [cbn [ptr_add]; do 2 f_equal; lia|].
    split; [cbn [ptr_add]; do 2 f_equal; lia|].
    destruct Hs2 as [Hb2 _ _ _ | k2 bo2 po2 mo2 B2 Hb2 _ _ HB2 _ _ _ _ _ _ _];
      rewrite Hbase2, Hb in Hb2; [discriminate Hb2|].
    injection Hb2 as <- <-.
    rewrite Hbase2, Hb in Hbytes2.
    replace (Z.to_nat (po - bo + len))
      with (Z.to_nat (po - bo) + Z.to_nat len)%nat in Hbytes2 by lia.
    rewrite (bytes_at_split _ _ _ _ _ _ HB2) in Hbytes2.
    apply app_inj_1 in Hbytes2 as [_ Hbytes2].
    + pose proof (Hsame (Z.to_nat len)) as Hsame'. cbn [fst] in Hsame'.
      rewrite <- Hsame', <- Hbytes2. do 2 f_equal. lia.
    + rewrite (bytes_at_length _ _ _ _ _ HB2), (bytes_at_length _ _ _ _ _ HB).
      reflexivity.
Qed.

Lemma add_returns_written_place_witness :
  well_formed sample = true /\ within_capacity sample = true /\
  fill sample = Ok 3 sample /\
  readable_source sample (Ptr 1 0, 2) = true /\
  (3 + 2) * 3 / 2 < uint32_modulus /\
  exists p s',
    add (Ptr 1 0) 2 sample = Ok p s' /\
    ptr_add (base (this s')) 3 = Some p /\
    ptr_add p 2 = Some (ptr (this s')) /\
    bytes_at (mem s') p (Z.to_nat 2) = bytes_at (mem sample) (Ptr 1 0) (Z.to_nat 2).
Proof.
  do 4 (split; [reflexivity|]). split; [vm_compute; reflexivity|].
  apply (add_returns_written_place (Ptr 1 0) 2 sample 3);
    [reflexivity | reflexivity | reflexivity | reflexivity
     | vm_compute; reflexivity].
Defined.

(** X8: [add_unchecked] checks nothing.  With a data pointer that is not
    null and more bytes than lie between the cursor and the end of the
    block the buffer occupies, it does not grow the buffer: the copy runs
    beyond the end of the block, which has no defined behaviour. *)
Theorem add_unchecked_overrun data len s :
  well_formed s = true -> is_null data = false ->
  room_in_block s < len ->
  add_unchecked data len s = Stop Undefined.
Proof.
  intros Hwf Hdata Hlen. pose proof (well_formed_shape s Hwf) as Hs.
  destruct data as [|ks os]; [discriminate Hdata|].
  assert (Hcopy : memcpy (ptr (this s)) (Ptr ks os) len s = Stop Undefined).
  { unfold room_in_block in Hlen. unfold memcpy.
    destruct Hs as [_ Hp _ _ | k bo po mo B _ Hp _ HB _ _ Hpo _ _ _ _];
      rewrite Hp in Hlen |- *.
    - destruct (len =? 0) eqn:E0; [apply Z.eqb_eq in E0; lia|]. reflexivity.
    - rewrite HB in Hlen |- *.
      destruct (len =? 0) eqn:E0; [apply Z.eqb_eq in E0; lia|].
      destruct (mem s !! ks) as [Src|]; [|reflexivity].
      replace (po + len <=? blen B) with false
        by (symmetry; apply Z.leb_gt; lia).
      rewrite !andb_false_r, andb_false_l. reflexivity. }
  unfold add_unchecked. cbn [is_null]. unfold bind at 1. cbn [get_this].
  unfold bind at 1. rewrite Hcopy. reflexivity.
Qed.

Lemma add_unchecked_overrun_witness :
  well_formed sample = true /\ is_null (Ptr 0 0) = false /\
  room_in_block sample < 2 /\
  add_unchecked (Ptr 0 0) 2 sample = Stop Undefined.
Proof.
  split; [reflexivity|]. split; [reflexivity|].
  split; [vm_compute; reflexivity|].
  apply (add_unchecked_overrun (Ptr 0 0) 2 sample);
    [reflexivity | reflexivity | vm_compute; reflexivity].
Defined.

(** ** Replacing the contents *)

Lemma clear_shape s :
  shape s ->
  shape (State (mem s) {| base := base (this s); ptr := base (this s);
                          mark := mark (this s); size := size (this s);
                          own := own (this s) |}).
Proof.
  intros [Hb Hp Hm Hsz | k bo po mo B Hb Hp Hm HB Hl Hbo Hpo Hsz HL Ho Hs].
  - apply Unallocated; cbn [this base ptr mark size]; assumption.
  - apply (Allocated _ k bo bo mo B); cbn [mem this base ptr mark size own];
      try assumption; lia.
Qed.

Lemma set_mark_shape s :
  shape s ->
  shape (State (mem s) {| base := base (this s); ptr := ptr (this s);
                          mark := ptr (this s); size := size (this s);
                          own := own (this s) |}).
Proof.
  intros [Hb Hp Hm Hsz | k bo po mo B Hb Hp Hm HB Hl Hbo Hpo Hsz HL Ho Hs].
  - apply Unallocated; cbn [this base ptr mark size]; assumption.
  - apply (Allocated _ k bo po po B); cbn [mem this base ptr mark size own];
      assumption.
Qed.

(** [set] with a null data pointer: the buffer is emptied and, if needed,
    grown to [len] bytes; nothing is written. *)
Lemma set_null_shape len s :
  shape s -> 0 <= len -> len < uint32_modulus ->
  exists s',
    set Null len s = Ok tt s' /\ shape s' /\
    ptr_diff (ptr (this s')) (base (this s')) = Some 0 /\
    size (this s') = Z.max (size (this s)) len.
Proof.
  intros Hs Hlen Hn.
  pose proof (shape_size_range s Hs) as Hsz.
  pose proof (clear_shape s Hs) as Hs0.
  set (s0 := State (mem s) _) in Hs0.
  assert (Hd0 : ptr_diff (ptr (this s0)) (base (this s0)) = Some 0)
    by apply ptr_diff_self.
  destruct (reserve_makes_room len false s0 0 Hs0 Hd0 ltac:(cbn; lia) Hlen
              ltac:(lia))
    as (s1 & Hres & Hs1 & Hd1 & Hsize1 & _).
  exists s1. split.
  { unfold set. rewrite (bind_ok clear _ s tt s0 eq_refl).
    rewrite (bind_ok _ _ _ _ _ Hres). reflexivity. }
  split; [exact Hs1|]. split; [exact Hd1|].
  rewrite Hsize1. cbn [s0 this size]. f_equal.
Qed.

(** [set] with readable data. *)
Lemma set_shape data len s :
  shape s -> readable_source s (data, len) = true -> len < uint32_modulus ->
  exists s',
    set data len s = Ok tt s' /\ shape s' /\
    ptr_diff (ptr (this s')) (base (this s')) = Some len /\
    size (this s') = Z.max (size (this s)) len /\
    bytes_at (mem s') (base (this s')) (Z.to_nat len)
    = bytes_at (mem s) data (Z.to_nat len).
Proof.
  intros Hs Hsrc Hn.
  destruct (readable_source_inv s data len Hsrc)
    as (ks & os & Src & Hdata & _ & _ & _ & Hlen & _).
  pose proof (shape_size_range s Hs) as Hsz.
  pose proof (clear_shape s Hs) as Hs0.
  set (s0 := State (mem s) _) in Hs0.
  assert (Hd0 : ptr_diff (ptr (this s0)) (base (this s0)) = Some 0)
    by apply ptr_diff_self.
  assert (Hsrc0 : readable_source s0 (data, len) = true) by exact Hsrc.
  destruct (reserve_makes_room len false s0 0 Hs0 Hd0 ltac:(cbn; lia) Hlen
              ltac:(lia))
    as (s1 & Hres & Hs1 & Hd1 & Hsize1 & _ & Hframe & _).
  destruct (readable_source_frame s0 s1 (data, len) Hsrc0 Hframe)
    as [Hsrc1 Hsame].
  assert (Hsize1' : size (this s1) = Z.max (size (this s)) len)
    by (rewrite Hsize1; cbn [s0 this size]; f_equal).
  destruct (add_unchecked_room data len s1 0 Hs1 Hd1 ltac:(lia) Hsrc1)
    as (s2 & Hadd & Hs2 & Hd2 & Hbase2 & Hsize2 & _ & _ & Hbytes2).
  exists s2. split.
  { unfold set. rewrite (bind_ok clear _ s tt s0 eq_refl).
    rewrite (bind_ok _ _ _ _ _ Hres).
    rewrite (bind_ok _ _ _ _ _ Hadd). reflexivity. }
  split; [exact Hs2|]. rewrite Z.add_0_l in Hd2, Hbytes2.
  split; [exact Hd2|]. split; [lia|].
  rewrite Hbytes2. cbn [Z.to_nat]. rewrite bytes_at_zero. cbn [app].
  pose proof (Hsame (Z.to_nat len)) as Hsame'. cbn [fst] in Hsame'.
  exact Hsame'.
Qed.

(** X9: [set] replaces the contents.  Below 4 GiB, on a well-formed buffer
    and with [len] readable bytes at [data], it returns; afterwards the
    buffer holds exactly these [len] bytes, whatever it held before, and
    its capacity is the larger of the old capacity and [len]. *)
Theorem set_replaces_contents data len s :
  well_formed s = true -> readable_source s (data, len) = true ->
  len < uint32_modulus ->
  exists s',
    set data len s = Ok tt s' /\
    fill s' = Ok len s' /\
    bytes_at (mem s') (base (this s')) (Z.to_nat len)
    = bytes_at (mem s) data (Z.to_nat len) /\
    size (this s') = Z.max (size (this s)) len /\
    well_formed s' = true /\ within_capacity s' = true.
Proof.
  intros Hwf Hsrc Hn. destruct moduli as (M32 & M64 & Mmax).
  pose proof (well_formed_shape s Hwf) as Hs.
  destruct (readable_source_inv s data len Hsrc)
    as (ks & os & Src & _ & _ & _ & _ & Hlen & _).
  destruct (set_shape data len s Hs Hsrc Hn)
    as (s' & Hset & Hs' & Hd' & Hsize & Hbytes).
  exists s'. split; [exact Hset|].
  split.
  { rewrite (fill_diff s' len Hd'), to_size_t_small by lia. reflexivity. }
  split; [exact Hbytes|]. split; [exact Hsize|].
  split; [apply shape_well_formed, Hs'|].
  unfold within_capacity. rewrite Hd'. apply Z.leb_le. lia.
Qed.

Lemma set_replaces_contents_witness :
  well_formed sample = true /\ readable_source sample (Ptr 1 0, 2) = true /\
  2 < uint32_modulus /\
  exists s',
    set (Ptr 1 0) 2 sample = Ok tt s' /\
    fill s' = Ok 2 s' /\
    bytes_at (mem s') (base (this s')) (Z.to_nat 2)
    = bytes_at (mem sample) (Ptr 1 0) (Z.to_nat 2) /\
    size (this s') = Z.max (size (this sample)) 2 /\
    well_formed s' = true /\ within_capacity s' = true.
Proof.
  split; [reflexivity|]. split; [reflexivity|].
  split; [vm_compute; reflexivity|].
  apply (set_replaces_contents (Ptr 1 0) 2 sample);
    [reflexivity | reflexivity | vm_compute; reflexivity].
Defined.

(** ** The calls keep the buffer well-formed *)

Lemma free_run s :
  shape s ->
  exists h', free s = Ok tt (State h' {| base := Null; ptr := Null;
                                         mark := Null; size := 0;
                                         own := own (this s) |}).
Proof.
  intros Hs.
  assert (Hdel : exists h',
             (if own (this s) then delete_array (base (this s)) else ret tt) s
             = Ok tt (State h' (this s))).
  { destruct (own (this s)) eqn:Ho.
    - destruct Hs as [Hb _ _ _ | k bo po mo B Hb _ _ HB Hl _ _ _ _ Hbo _].
      + rewrite Hb. exists (mem s). cbn [delete_array]. rewrite state_eta.
        reflexivity.
      + rewrite Hb, (Hbo Ho). destruct s as [h b]. cbn [mem this] in *.
        rewrite (delete_array_live h b k B HB Hl). eauto.
    - exists (mem s). cbn [ret]. rewrite state_eta. reflexivity. }
  destruct Hdel as (h' & Hdel).
  unfold free. cxx. rewrite (bind_ok _ _ _ _ _ Hdel). cxx.
  eexists. reflexivity.
Qed.

Lemma release_run want_len s d :
  ptr_diff (ptr (this s)) (base (this s)) = Some d ->
  release want_len s
  = Ok (base (this s), if want_len then Some (to_size_t d) else None)
       (State (mem s) {| base := Null; ptr := Null; mark := Null; size := 0;
                         own := own (this s) |}).
Proof.
  intros Hd. unfold release. cxx. destruct want_len.
  - rewrite (bind_assoc fill). rewrite (bind_ok _ _ _ _ _ (fill_diff s d Hd)).
    reflexivity.
  - reflexivity.
Qed.

Lemma shape_bools s d :
  shape s -> ptr_diff (ptr (this s)) (base (this s)) = Some d ->
  d <= size (this s) ->
  well_formed s = true /\ within_capacity s = true.
Proof.
  intros Hs Hd Hle. split; [apply shape_well_formed, Hs|].
  unfold within_capacity. rewrite Hd. apply Z.leb_le. exact Hle.
Qed.

(** One admissible call on a well-formed buffer returns and leaves a
    well-formed buffer. *)
Lemma invoke_returns c s :
  well_formed s = true -> within_capacity s = true ->
  admissible s c = true ->
  exists s',
    invoke c s = Ok tt s' /\
    well_formed s' = true /\ within_capacity s' = true.
Proof.
  intros Hwf Hcap Hadm. destruct moduli as (M32 & M64 & Mmax).
  pose proof (well_formed_shape s Hwf) as Hs.
  destruct (within_capacity_inv s Hcap) as (d & Hd & Hle).
  pose proof (used_range s d Hs Hd) as Hr.
  pose proof (shape_size_range s Hs) as Hsz.
  pose proof (used_diff s d Hd) as Hused.
  destruct c as [len|len nocopy|data len|data len|data len| | | |w];
    cbn [admissible invoke] in Hadm |- *; rewrite ?Hused in Hadm.
  - apply andb_prop in Hadm as [Hlen Hn].
    apply Z.leb_le in Hlen. apply Z.ltb_lt in Hn.
    destruct (ensure_makes_room len s d Hs Hd Hle Hlen Hn)
      as (s1 & Hens & Hs1 & Hd1 & Hroom & _).
    exists s1. split; [exact Hens|]. apply (shape_bools s1 d); (assumption || lia).
  - apply andb_prop in Hadm as [Hlen Hn].
    apply Z.leb_le in Hlen. apply Z.ltb_lt in Hn.
    destruct (reserve_makes_room len nocopy s d Hs Hd Hle Hlen Hn)
      as (s1 & Hres & Hs1 & Hd1 & Hsize & _).
    exists s1. split; [exact Hres|]. apply (shape_bools s1 d); (assumption || lia).
  - destruct data as [|ks os].
    + exists s. split; [destruct s; reflexivity|]. split; assumption.
    + cbn [is_null orb] in Hadm. apply andb_prop in Hadm as [Hadm _].
      apply andb_prop in Hadm as [Hsrc Hroom].
      apply Z.leb_le in Hroom.
      destruct (add_unchecked_room (Ptr ks os) len s d Hs Hd Hroom Hsrc)
        as (s1 & Hadd & Hs1 & Hd1 & _ & Hsize & _).
      exists s1. split; [rewrite (bind_ok _ _ _ _ _ Hadd); reflexivity|].
      apply (shape_bools s1 (d + len)); (assumption || lia).
  - apply andb_prop in Hadm as [Hadm Hsrc].
    apply andb_prop in Hadm as [Hlen Hn].
    apply Z.leb_le in Hlen. apply Z.ltb_lt in Hn.
    destruct data as [|ks os].
    + destruct (ensure_makes_room len s d Hs Hd Hle Hlen Hn)
        as (s1 & Hens & Hs1 & Hd1 & Hroom & _).
      exists s1. split.
      { unfold add. rewrite (bind_assoc (ensure len)).
        rewrite (bind_ok _ _ _ _ _ Hens). reflexivity. }
      apply (shape_bools s1 d); (assumption || lia).
    + cbn [source_ok is_null orb] in Hsrc. apply andb_prop in Hsrc as [Hsrc _].
      destruct (add_step (Ptr ks os) len s d Hs Hd Hle Hsrc Hn)
        as (p & s1 & Hadd & Hs1 & Hd1 & Hroom & _).
      exists s1. split; [rewrite (bind_ok _ _ _ _ _ Hadd); reflexivity|].
      apply (shape_bools s1 (d + len)); (assumption || lia).
  - apply andb_prop in Hadm as [Hadm Hsrc].
    apply andb_prop in Hadm as [Hlen Hn].
    apply Z.leb_le in Hlen. apply Z.ltb_lt in Hn.
    destruct data as [|ks os].
    + destruct (set_null_shape len s Hs Hlen Hn)
        as (s1 & Hset & Hs1 & Hd1 & Hsize).
      exists s1. split; [exact Hset|].
      apply (shape_bools s1 0); (assumption || lia).
    + cbn [source_ok is_null orb] in Hsrc. apply andb_prop in Hsrc as [Hsrc _].
      destruct (set_shape (Ptr ks os) len s Hs Hsrc Hn)
        as (s1 & Hset & Hs1 & Hd1 & Hsize & _).
      exists s1. split; [exact Hset|].
      apply (shape_bools s1 len); (assumption || lia).
  - eexists. split; [reflexivity|].
    apply (shape_bools _ 0);
      [apply clear_shape, Hs | apply ptr_diff_self | cbn [this size]; lia].
  - eexists. split; [reflexivity|].
    apply (shape_bools _ d);
      [apply set_mark_shape, Hs | exact Hd | cbn [this size]; lia].
  - destruct (free_run s Hs) as (h' & Hfree).
    eexists. split; [exact Hfree|]. split; reflexivity.
  - eexists. rewrite (bind_ok _ _ _ _ _ (release_run w s d Hd)).
    split; [reflexivity|]. split; reflexivity.
Qed.

(** The offset of the bookmark across one call. *)
Lemma invoke_mark c s s' :
  keeps_mark c = true -> invoke c s = Ok tt s' ->
  ptr_diff (mark (this s')) (base (this s'))
  = ptr_diff (mark (this s)) (base (this s)).
Proof.
  assert (Hunchecked : forall data len st p st',
            add_unchecked data len st = Ok p st' ->
            ptr_diff (mark (this st')) (base (this st'))
            = ptr_diff (mark (this st)) (base (this st))).
  { intros data len st p st' H.
    apply add_unchecked_frame in H as (Hb & _ & Hm & _). rewrite Hb, Hm.
    reflexivity. }
  assert (Hgrown : forall nocopy st st',
            st' = st \/ (exists n, grow n nocopy st = Ok tt st') ->
            ptr_diff (mark (this st')) (base (this st'))
            = ptr_diff (mark (this st)) (base (this st))).
  { intros nocopy st st' [->|[n H]]; [reflexivity|].
    apply grow_keeps_offsets in H as [_ H]. exact H. }
  destruct c as [len|len nocopy|data len|data len|data len| | | |w];
    cbn [keeps_mark invoke]; intros Hk H; try discriminate Hk.
  - apply (Hgrown false). apply (ensure_inv len), H.
  - apply (Hgrown nocopy). apply (reserve_inv len), H.
  - apply bind_inv in H as (p & s1 & H & Hret).
    apply Ok_inj in Hret as [_ <-]. eapply Hunchecked, H.
  - apply bind_inv in H as (p & s1 & H & Hret).
    apply Ok_inj in Hret as [_ <-].
    unfold add in H. apply bind_inv in H as ([] & s0 & Hens & H).
    rewrite (Hunchecked _ _ _ _ _ H).
    apply (Hgrown false). apply (ensure_inv len), Hens.
  - unfold set in H.
    apply bind_inv in H as ([] & s0 & Hclear & H).
    apply bind_inv in H as ([] & s1 & Hres & H).
    apply bind_inv in H as (p & s2 & Hadd & H).
    apply Ok_inj in H as [_ <-].
    rewrite (Hunchecked _ _ _ _ _ Hadd).
    unfold clear in Hclear. cxx in Hclear. apply Ok_inj in Hclear as [_ <-].
    apply (Hgrown false _ _ (reserve_inv len false _ _ Hres)).
  - unfold clear in H. cxx in H. apply Ok_inj in H as [_ <-]. reflexivity.
Qed.

(** No admissible call that keeps the bookmark lowers the capacity. *)
Lemma invoke_size c s s' d :
  ptr_diff (ptr (this s)) (base (this s)) = Some d ->
  0 <= d <= size (this s) -> size (this s) < uint32_modulus ->
  admissible s c = true -> keeps_mark c = true ->
  invoke c s = Ok tt s' -> size (this s) <= size (this s').
Proof.
  intros Hd Hr Hsz Hadm Hk H.
  pose proof (used_diff s d Hd) as Hused.
  destruct c as [len|len nocopy|data len|data len|data len| | | |w];
    cbn [admissible keeps_mark invoke] in Hadm, Hk, H; try discriminate Hk;
    rewrite ?Hused in Hadm.
  - apply andb_prop in Hadm as [Hlen Hn].
    apply Z.leb_le in Hlen. apply Z.ltb_lt in Hn.
    apply (ensure_capacity len s d); assumption.
  - apply andb_prop in Hadm as [Hlen Hn].
    apply Z.leb_le in Hlen. apply Z.ltb_lt in Hn.
    apply (reserve_capacity len nocopy s d); assumption.
  - apply bind_inv in H as (p & s1 & H & Hret).
    apply Ok_inj in Hret as [_ <-].
    apply add_unchecked_frame in H as (_ & Hsize & _). lia.
  - apply andb_prop in Hadm as [Hadm _].
    apply andb_prop in Hadm as [Hlen Hn].
    apply Z.leb_le in Hlen. apply Z.ltb_lt in Hn.
    apply bind_inv in H as (p & s1 & H & Hret).
    apply Ok_inj in Hret as [_ <-].
    unfold add in H. apply bind_inv in H as ([] & s0 & Hens & H).
    apply (ensure_capacity len s d) in Hens; try assumption.
    apply add_unchecked_frame in H as (_ & Hsize & _). lia.
  - apply andb_prop in Hadm as [Hadm _].
    apply andb_prop in Hadm as [Hlen Hn].
    apply Z.leb_le in Hlen. apply Z.ltb_lt in Hn.
    unfold set in H.
    apply bind_inv in H as ([] & s0 & Hclear & H).
    apply bind_inv in H as ([] & s1 & Hres & H).
    apply bind_inv in H as (p & s2 & Hadd & H).
    apply Ok_inj in H as [_ <-].
    unfold clear in Hclear. cxx in Hclear. apply Ok_inj in Hclear as [_ <-].
    apply (reserve_capacity len false _ 0) in Hres;
      cbn [this base ptr size] in *; try lia.
    + apply add_unchecked_frame in Hadd as (_ & Hsize & _). lia.
    + apply ptr_diff_self.
  - unfold clear in H. cxx in H. apply Ok_inj in H as [_ <-]. cbn [this size]. lia.
Qed.

Lemma cursor_in_region s :
  shape s -> has_region s = true -> is_null (ptr (this s)) = false.
Proof.
  unfold has_region.
  intros [Hb Hp _ _ | k bo po mo B Hb Hp _ _ _ _ _ _ _ _ _]; rewrite Hb, Hp;
    [discriminate|reflexivity].
Qed.

Lemma grown_cursor nocopy st st' :
  st' = st \/ (exists n, grow n nocopy st = Ok tt st') ->
  shape st -> has_region st = true \/ st' <> st ->
  is_null (ptr (this st')) = false.
Proof.
  intros [->|[m H]] Hs Hreg.
  - destruct Hreg as [Hreg|Hne]; [|contradiction].
    apply cursor_in_region; assumption.
  - apply grow_inv in H as (_ & _ & _ & _ & (d & _ & Hptr) & _).
    rewrite Hptr. reflexivity.
Qed.

(** The destination of the copy in an admissible call is not null. *)
Lemma destination_in_region c s p :
  well_formed s = true -> within_capacity s = true ->
  admissible s c = true -> destination c s = Some p ->
  is_null p = false.
Proof.
  intros Hwf Hcap Hadm Hdest. destruct moduli as (M32 & M64 & Mmax).
  pose proof (well_formed_shape s Hwf) as Hs.
  destruct (within_capacity_inv s Hcap) as (d & Hd & Hle).
  pose proof (used_range s d Hs Hd) as Hr.
  pose proof (shape_size_range s Hs) as Hsz.
  pose proof (used_diff s d Hd) as Hused.
  destruct c as [len|len nocopy|data len|data len|data len| | | |w];
    cbn [admissible destination] in Hadm, Hdest; try discriminate Hdest;
    rewrite ?Hused in Hadm;
    (destruct data as [|ks os]; [discriminate Hdest|]);
    cbn [is_null orb source_ok] in Hadm, Hdest.
  - injection Hdest as <-. apply andb_prop in Hadm as [_ Hreg].
    apply cursor_in_region; assumption.
  - apply andb_prop in Hadm as [Hadm Hsrc].
    apply andb_prop in Hadm as [Hlen Hn].
    apply Z.leb_le in Hlen. apply Z.ltb_lt in Hn.
    apply andb_prop in Hsrc as [_ Hreg].
    destruct (ensure len s) as [[] s1|] eqn:Hens; [|discriminate Hdest].
    injection Hdest as <-.
    apply (grown_cursor false s s1 (ensure_inv len s s1 Hens) Hs).
    destruct (has_region s) eqn:Hr'; [left; reflexivity|right].
    cbn [orb] in Hreg. apply Z.ltb_lt in Hreg. intros ->.
    rewrite (ensure_grows len s d) in Hens; try assumption; try lia.
    + apply grow_inv in Hens as (_ & _ & _ & Hbase & _).
      unfold has_region in Hr'. rewrite Hbase in Hr'. discriminate Hr'.
    + destruct Hs as [_ _ _ Hz | k bo po mo B Hb _ _ _ _ _ _ _ _ _ _].
      * rewrite Hz in *. lia.
      * unfold has_region in Hr'. rewrite Hb in Hr'. discriminate Hr'.
  - apply andb_prop in Hadm as [Hadm Hsrc].
    apply andb_prop in Hadm as [Hlen Hn].
    apply Z.leb_le in Hlen. apply Z.ltb_lt in Hn.
    apply andb_prop in Hsrc as [_ Hreg].
    set (s0 := State (mem s) {| base := base (this s); ptr := base (this s);
                                mark := mark (this s); size := size (this s);
                                own := own (this s) |}) in *.
    change ((clear ;; reserve len false) s) with (reserve len false s0) in Hdest.
    destruct (reserve len false s0) as [[] s1|] eqn:Hres; [|discriminate Hdest].
    injection Hdest as <-.
    apply (grown_cursor false s0 s1 (reserve_inv len false s0 s1 Hres)
             (clear_shape s Hs)).
    destruct (has_region s) eqn:Hr'; [left; exact Hr'|right].
    cbn [orb] in Hreg. apply Z.ltb_lt in Hreg. intros ->.
    assert (Hsize0 : size (this s) = 0).
    { destruct Hs as [_ _ _ Hz | k bo po mo B Hb _ _ _ _ _ _ _ _ _ _];
        [exact Hz|].
      unfold has_region in Hr'. rewrite Hb in Hr'. discriminate Hr'. }
    rewrite (reserve_grows len false s0 0) in Hres;
      cbn [s0 this base ptr size]; try apply ptr_diff_self; try lia.
    apply grow_inv in Hres as (_ & _ & _ & Hbase & _).
    unfold has_region in Hr'. cbn [s0 this base] in Hbase.
    rewrite Hbase in Hr'. discriminate Hr'.
Qed.

(** One admissible call, with the bookmark. *)
Lemma invoke_step c s :
  well_formed s = true -> within_capacity s = true ->
  mark_within_capacity s = true -> admissible s c = true ->
  exists s',
    invoke c s = Ok tt s' /\
    well_formed s' = true /\ within_capacity s' = true /\
    mark_within_capacity s' = true.
Proof.
  intros Hwf Hcap Hmark Hadm.
  destruct (invoke_returns c s Hwf Hcap Hadm) as (s' & Hrun & Hwf' & Hcap').
  exists s'. split; [exact Hrun|]. split; [exact Hwf'|]. split; [exact Hcap'|].
  pose proof (well_formed_shape s Hwf) as Hs.
  destruct (within_capacity_inv s Hcap) as (d & Hd & Hle).
  pose proof (used_range s d Hs Hd) as Hr.
  pose proof (shape_size_range s Hs) as Hsz.
  destruct (keeps_mark c) eqn:Hk.
  - pose proof (invoke_mark c s s' Hk Hrun) as Hm.
    pose proof (invoke_size c s s' d Hd ltac:(lia) ltac:(lia) Hadm Hk Hrun) as Hmono.
    unfold mark_within_capacity in Hmark |- *. rewrite Hm.
    destruct (ptr_diff (mark (this s)) (base (this s))) as [m|]; [|discriminate].
    apply andb_prop in Hmark as [H0 H1].
    apply Z.leb_le in H0, H1.
    apply andb_true_intro. split; apply Z.leb_le; lia.
  - destruct c; try discriminate Hk; cbn [invoke] in Hrun.
    + unfold set_mark in Hrun. cxx in Hrun. apply Ok_inj in Hrun as [_ <-].
      unfold mark_within_capacity. cbn [this base mark size]. rewrite Hd.
      apply andb_true_intro. split; apply Z.leb_le; lia.
    + destruct (free_run s Hs) as (h' & Hfree). rewrite Hfree in Hrun.
      apply Ok_inj in Hrun as [_ <-]. reflexivity.
    + rewrite (bind_ok _ _ _ _ _ (release_run want_len s d Hd)) in Hrun.
      cxx in Hrun. apply Ok_inj in Hrun as [_ <-]. reflexivity.
Qed.

(** X14: admissible calls keep the buffer usable.  Start from a
    well-formed buffer whose cursor and bookmark lie between [base] and
    [base + size], and take any sequence of calls of [ensure], [reserve],
    [add_unchecked], [add], [set], [clear], [set_mark], [free] and [release]
    in which each call is admissible in the state it is made in (lengths not
    negative, requested sizes below 2^32, data null or readable outside the
    buffer, the unchecked append within [remaining()], and no append of zero
    bytes to a buffer without a region).  Then the sequence never stops
    with [Undefined], that is, it copies only inside allocated blocks,
    releases only the start of a block that is still allocated and subtracts
    only pointers into one block; no call hands a null destination to
    [memcpy]; and whenever the sequence returns, it leaves a buffer of the
    same kind. *)
Theorem invoke_all_keeps_well_formed cs :
  forall s,
    well_formed s = true -> within_capacity s = true ->
    mark_within_capacity s = true ->
    admissible_all s cs = true ->
    invoke_all cs s <> Stop Undefined /\
    copies_to_region s cs = true /\
    forall s', invoke_all cs s = Ok tt s' ->
               well_formed s' = true /\ within_capacity s' = true /\
               mark_within_capacity s' = true.
Proof.
  induction cs as [|c cs IH]; intros s Hwf Hcap Hmark Hadm.
  - cbn [invoke_all copies_to_region ret].
    split; [discriminate|]. split; [reflexivity|].
    intros s' H. apply Ok_inj in H as [_ <-]. auto.
  - cbn [admissible_all] in Hadm. apply andb_prop in Hadm as [Hc Hrest].
    destruct (invoke_step c s Hwf Hcap Hmark Hc)
      as (s1 & Hrun & Hwf1 & Hcap1 & Hmark1).
    rewrite Hrun in Hrest.
    destruct (IH s1 Hwf1 Hcap1 Hmark1 Hrest) as (Hdef & Hcopies & Hkeep).
    cbn [invoke_all copies_to_region]. rewrite (bind_ok _ _ _ _ _ Hrun), Hrun.
    split; [exact Hdef|]. split; [|exact Hkeep].
    rewrite Hcopies, andb_true_r.
    destruct (destination c s) as [p|] eqn:Hdest; [|reflexivity].
    rewrite (destination_in_region c s p Hwf Hcap Hc Hdest). reflexivity.
Qed.

(** The append of no bytes to a buffer without a region is not admissible:
    [add] would pass the null cursor to [memcpy]. *)
Example empty_append_needs_region :
  admissible (State sources {| base := Null; ptr := Null; mark := Null;
                               size := 0; own := true |})
             (Add (Ptr 0 0) 0) = false
  /\ destination (Add (Ptr 0 0) 0)
       (State sources {| base := Null; ptr := Null; mark := Null;
                         size := 0; own := true |}) = Some Null.
Proof. split; vm_compute; reflexivity. Qed.

Lemma invoke_all_keeps_well_formed_witness :
  exists s',
    well_formed sample = true /\ within_capacity sample = true /\
    mark_within_capacity sample = true /\
    admissible_all sample
      [Add (Ptr 1 0) 2; SetMark; Ensure 100; Clear; Overwrite (Ptr 0 0) 3;
       Reserve 7 true; AddUnchecked (Ptr 1 0) 2; Release true;
       Add (Ptr 0 1) 2; Add (Ptr 0 0) 0; Free] = true /\
    invoke_all
      [Add (Ptr 1 0) 2; SetMark; Ensure 100; Clear; Overwrite (Ptr 0 0) 3;
       Reserve 7 true; AddUnchecked (Ptr 1 0) 2; Release true;
       Add (Ptr 0 1) 2; Add (Ptr 0 0) 0; Free] sample = Ok tt s' /\
    copies_to_region sample
      [Add (Ptr 1 0) 2; SetMark; Ensure 100; Clear; Overwrite (Ptr 0 0) 3;
       Reserve 7 true; AddUnchecked (Ptr 1 0) 2; Release true;
       Add (Ptr 0 1) 2; Add (Ptr 0 0) 0; Free] = true /\
    well_formed s' = true /\ within_capacity s' = true /\
    mark_within_capacity s' = true.
Proof.
  eassert (E : invoke_all
                 [Add (Ptr 1 0) 2; SetMark; Ensure 100; Clear;
                  Overwrite (Ptr 0 0) 3; Reserve 7 true;
                  AddUnchecked (Ptr 1 0) 2; Release true; Add (Ptr 0 1) 2;
                  Add (Ptr 0 0) 0; Free] sample = Ok tt _)
    by (vm_compute; reflexivity).
  assert (A : admissible_all sample
                [Add (Ptr 1 0) 2; SetMark; Ensure 100; Clear;
                 Overwrite (Ptr 0 0) 3; Reserve 7 true;
                 AddUnchecked (Ptr 1 0) 2; Release true; Add (Ptr 0 1) 2;
                 Add (Ptr 0 0) 0; Free] = true)
    by (vm_compute; reflexivity).
  destruct (invoke_all_keeps_well_formed _ sample eq_refl eq_refl eq_refl A)
    as (_ & Hcopies & Hkeep).
  eexists. do 3 (split; [reflexivity|]). split; [exact A|].
  split; [exact E|]. split; [exact Hcopies|]. exact (Hkeep _ E).
Defined.

(** ** Building and handing over *)



(** ** Edges of [set] and [grow] *)




(** X17: [grow] trusts its caller with the new size.  Asked, on a
    well-formed buffer within its capacity, for fewer bytes than are in use, it copies the used
    bytes into the smaller block, beyond its end, which has no defined
    behaviour; with [nocopy] it returns, and leaves the cursor beyond the
    recorded capacity. *)
Theorem grow_below_used n s d :
  well_formed s = true -> within_capacity s = true ->
  fill s = Ok d s -> 0 <= n < d ->
  grow n false s = Stop Undefined /\
  exists s', grow n true s = Ok tt s' /\
             fill s' = Ok d s' /\ size (this s') = n /\
             within_capacity s' = false.
Proof.
  intros Hwf Hcap Hfill Hn. destruct moduli as (M32 & M64 & Mmax).
  pose proof (well_formed_shape s Hwf) as Hs.
  destruct (fill_shape s Hs) as (d' & Hd & Hfill' & Hr).
  rewrite Hfill' in Hfill. apply Ok_inj in Hfill as [-> _].
  destruct (within_capacity_inv s Hcap) as (d' & Hd' & Hle).
  rewrite Hd in Hd'. injection Hd' as <-.
  pose proof (shape_size_range s Hs) as Hsz.
  split.
  - destruct Hs as [Hb Hp _ _ | k bo po mo B Hb Hp Hm HB Hl Hbo Hpo _ HL _ _].
    { rewrite Hb, Hp in Hd. simpl in Hd. injection Hd as <-. lia. }
    rewrite Hb, Hp in Hd. simpl in Hd. rewrite Nat.eqb_refl in Hd.
    injection Hd as <-.
    destruct s as [h b]. cbn [mem this] in *.
    unfold grow, new_array. cxx.
    rewrite (proj2 (Z.leb_le _ _)) by lia. cxx.
    rewrite Hb, Hp. cbn [is_null negb andb].
    assert (Hcopy : (d <- lift (ptr_diff (Ptr k po) (Ptr k bo)) ;;
                     memcpy (Ptr (length h) 0) (Ptr k bo) (to_size_t d))
                      (State (h ++ [Block n Indeterminate true]) b)
                    = Stop Undefined).
    { simpl ptr_diff. rewrite Nat.eqb_refl. cxx.
      rewrite to_size_t_small by lia. unfold memcpy. cxx.
      destruct (po - bo =? 0) eqn:E0; [apply Z.eqb_eq in E0; lia|].
      rewrite lookup_new_block, (lookup_old_block _ _ _ _ HB).
      cbn [blen live].
      replace (0 + (po - bo) <=? n) with false
        by (symmetry; apply Z.leb_gt; lia).
      rewrite !andb_false_r, andb_false_l. reflexivity. }
    unfold bind at 1. rewrite Hcopy. reflexivity.
  - destruct (grow_shape_nocopy n s d Hs Hd ltac:(lia))
      as (dm & h' & _ & Hgrow & _).
    eexists. split; [exact Hgrow|].
    split.
    { rewrite (fill_diff _ d) by (simpl; rewrite Nat.eqb_refl; f_equal; lia).
      rewrite to_size_t_small by lia. reflexivity. }
    cbn [this size]. split; [apply to_uint32_small; lia|].
    unfold within_capacity. cbn [this base ptr size ptr_diff].
    rewrite Nat.eqb_refl, to_uint32_small by lia. apply Z.leb_gt. lia.
Qed.

Lemma grow_below_used_witness :
  well_formed sample = true /\ within_capacity sample = true /\
  fill sample = Ok 3 sample /\ 0 <= 2 < 3 /\
  grow 2 false sample = Stop Undefined /\
  exists s', grow 2 true sample = Ok tt s' /\
             fill s' = Ok 3 s' /\ size (this s') = 2 /\
             within_capacity s' = false.
Proof.
  do 3 (split; [reflexivity|]). split; [lia|].
  apply (grow_below_used 2 sample 3);
    [reflexivity | reflexivity | reflexivity | lia].
Defined.
